(** * Evexi: a mutex-guarded byte sink with pluggable exporters

    A shallow embedding of [evexi.go] and [disk.go].

    - Go's [int] is a 64-bit two's-complement integer: it is modelled as [Z]
      with the wrap-around of every arithmetic operation written out.
    - A [[]byte] is a slice header (backing array, length, capacity) into a
      heap of byte arrays, so that truncation in place, fresh allocation and
      aliasing are all visible.  Every slice of this program starts at offset
      0 of its array.
    - Every exported method holds [mux] for its whole body, so a method call
      is one atomic step on the sink; [go e.export(data)] is recorded as a
      spawned goroutine (callback and argument) in dispatch order.
    - A Go panic ends the modelled execution ([Panic]).  Memory is taken to
      be unbounded: results about a sink of arbitrary capacity take the
      sink's construction as a premise. *)

From Stdlib Require Import ZArith List Lia Ascii String.
From Stdlib.Strings Require Import Byte.
From stdpp Require Import base list.
Import ListNotations.

Local Open Scope Z_scope.

(** ** Go's [int] *)

Definition int_min : Z := - 2 ^ 63.
Definition int_max : Z := 2 ^ 63 - 1.

(** Two's-complement reduction of a mathematical integer to an [int]. *)
Definition wrap (z : Z) : Z := (z + 2 ^ 63) mod 2 ^ 64 - 2 ^ 63.

Definition is_int (z : Z) : Prop := int_min <= z <= int_max.

Definition int_add (a b : Z) : Z := wrap (a + b).
Definition int_mul (a b : Z) : Z := wrap (a * b).

(** ** Panics and the execution monad *)

Inductive panic : Type :=
| DivideByZero
| MakesliceLenOutOfRange
| MakesliceCapOutOfRange.

Inductive result (A : Type) : Type :=
| Ok (a : A)
| Panic (p : panic).
Arguments Ok {A} a.
Arguments Panic {A} p.

(** Go's [/] on [int]: truncated division, a run-time panic on a zero
    divisor. *)
Definition int_quot (a b : Z) : result Z :=
  if b =? 0 then Panic DivideByZero else Ok (wrap (Z.quot a b)).

(** ** Slices and the heap *)

Record slice : Type := mkSlice {
  ptr : nat;   (* index of the backing array in the heap *)
  len : nat;
  cap : nat
}.

(** [len(s)] as the Go expression of type [int]. *)
Definition go_len (s : slice) : Z := Z.of_nat (len s).
Definition go_cap (s : slice) : Z := Z.of_nat (cap s).

(** The exporter callback [func([]byte)] is opaque to the sink: only its
    identity matters. *)
Inductive ExportFn : Type :=
| Callback (id : nat).

(** The background task started by [IntervalExport]: its ticker period and
    whether its context has been cancelled. *)
Record IntervalTask : Type := mkTask {
  exportInterval : Z;
  cancelled : bool
}.

Record Runtime : Type := mkRuntime {
  heap : list (list byte);
  spawned : list (ExportFn * slice);   (* go e.export(data), oldest first *)
  tasks : list IntervalTask
}.

Definition empty_runtime : Runtime := mkRuntime [] [] [].

Definition M (A : Type) : Type := Runtime -> result (A * Runtime).

Definition ret {A} (a : A) : M A := fun rt => Ok (a, rt).

Definition bind {A B} (m : M A) (k : A -> M B) : M B :=
  fun rt =>
    match m rt with
    | Ok (a, rt') => k a rt'
    | Panic p => Panic p
    end.

Definition lift {A} (r : result A) : M A :=
  fun rt => match r with Ok a => Ok (a, rt) | Panic p => Panic p end.

Notation "'do' x <- m ; k" := (bind m (fun x => k))
  (at level 10, x pattern, m at level 100, k at level 200).

(** The bytes a slice denotes in a heap. *)
Definition array_at (h : list (list byte)) (p : nat) : list byte :=
  default [] (h !! p).

Definition contents (rt : Runtime) (s : slice) : list byte :=
  take (len s) (array_at (heap rt) (ptr s)).

(** [make([]byte, n, c)]: a fresh zeroed array of [c] bytes.  Only the
    checks on the arguments themselves are modelled; whether the allocator
    grants the size is not (beyond its limit Go's [make] panics too, or the
    process runs out of memory), so wherever a capacity is arbitrary the
    allocation's success is a premise of the result. *)
Definition make (n c : Z) : M slice :=
  fun rt =>
    if n <? 0 then Panic MakesliceLenOutOfRange
    else if c <? n then Panic MakesliceCapOutOfRange
    else Ok (mkSlice (length (heap rt)) (Z.to_nat n) (Z.to_nat c),
             mkRuntime (heap rt ++ [replicate (Z.to_nat c) x00])
                       (spawned rt) (tasks rt)).

(** [s[:0]]: same array, same capacity, length zero. *)
Definition truncate (s : slice) : slice := mkSlice (ptr s) 0 (cap s).

(** [copy(dst, src)]: the first [min(len(dst), len(src))] bytes of [src]
    overwrite the start of [dst]'s array. *)
Definition copy (dst src : slice) : M Z :=
  fun rt =>
    let n := Nat.min (len dst) (len src) in
    let d := array_at (heap rt) (ptr dst) in
    let s := array_at (heap rt) (ptr src) in
    Ok (Z.of_nat n,
        mkRuntime (<[ptr dst := take n s ++ drop n d]> (heap rt))
                  (spawned rt) (tasks rt)).

(** [go fn(data)]. *)
Definition go (fn : ExportFn) (data : slice) : M unit :=
  fun rt => Ok (tt, mkRuntime (heap rt) (spawned rt ++ [(fn, data)]) (tasks rt)).

(** A growth policy that doubles small arrays, as Go's runtime does. *)
Definition doubling (oldcap needed : nat) : nat :=
  if (needed <=? 2 * oldcap)%nat then (2 * oldcap - needed)%nat else 0%nat.

(** ** The sink *)

Inductive error : Type :=
| ErrExportFuncNotSet
| ErrNegativeOrZeroInterval.

Record Evexi : Type := mkEvexi {
  buffer : slice;
  export : ExportFn;
  bufferMaxSize : Z;
  totalBufSize : Z;
  bufCount : Z
}.

Definition set_buffer (e : Evexi) (b : slice) : Evexi :=
  mkEvexi b (export e) (bufferMaxSize e) (totalBufSize e) (bufCount e).

Definition set_bufCount (e : Evexi) (c : Z) : Evexi :=
  mkEvexi (buffer e) (export e) (bufferMaxSize e) (totalBufSize e) c.

Definition set_totalBufSize (e : Evexi) (t : Z) : Evexi :=
  mkEvexi (buffer e) (export e) (bufferMaxSize e) t (bufCount e).

Section Sink.

(** When [append] has to reallocate, the language fixes only that the new
    capacity is at least the needed length; [growslack oldcap needed] is the
    room the runtime adds on top of it. *)
Variable growslack : nat -> nat -> nat.

(** [append(s, data...)]. *)
Definition append (s : slice) (data : list byte) : M slice :=
  fun rt =>
    let n := (len s + length data)%nat in
    if (n <=? cap s)%nat then
      let arr := array_at (heap rt) (ptr s) in
      Ok (mkSlice (ptr s) n (cap s),
          mkRuntime (<[ptr s := take (len s) arr ++ data ++ drop n arr]> (heap rt))
                    (spawned rt) (tasks rt))
    else
      let c := (n + growslack (cap s) n)%nat in
      Ok (mkSlice (length (heap rt)) n c,
          mkRuntime (heap rt ++ [contents rt s ++ data ++ replicate (c - n) x00])
                    (spawned rt) (tasks rt)).

(** [New]: the returned pair of a sink pointer and an error. *)
Definition New (export : option ExportFn) (bufferMaxSize : Z)
  : M (option Evexi * option error) :=
  match export with
  | None => ret (None, Some ErrExportFuncNotSet)
  | Some fn =>
      let initialBufSize := if bufferMaxSize >? 0 then bufferMaxSize else 0 in
      do b <- make 0 initialBufSize;
      ret (Some (mkEvexi b fn bufferMaxSize 0 0), None)
  end.

(** [bytes]: the unexported copy helper. *)
Definition bytes (e : Evexi) : M slice :=
  do bufCopy <- make (go_len (buffer e)) (go_len (buffer e));
  do _ <- copy bufCopy (buffer e);
  ret bufCopy.

(** [reset]: the unexported reset policy. *)
Definition reset (e : Evexi) : M Evexi :=
  if bufferMaxSize e >? 0 then
    if go_len (buffer e) >=? bufferMaxSize e then
      do b <- make 0 (bufferMaxSize e);
      ret (set_buffer e b)
    else
      ret (set_buffer e (truncate (buffer e)))
  else
    let e := set_bufCount e (int_add (bufCount e) 1) in
    let e := set_totalBufSize e (int_add (totalBufSize e) (go_len (buffer e))) in
    do avgBufSize <- lift (int_quot (totalBufSize e) (bufCount e));
    if go_len (buffer e) <=? int_mul avgBufSize 2 then
      ret (set_buffer e (truncate (buffer e)))
    else
      do b <- make avgBufSize avgBufSize;
      ret (set_buffer e b).

Definition Export (e : Evexi) (do_reset : bool) : M Evexi :=
  do data <- bytes e;
  do e <- (if do_reset then reset e else ret e);
  do _ <- go (export e) data;
  ret e.

(** [IntervalExport]: the cancel function is identified with the index of
    the task it stops. *)
Definition IntervalExport (e : Evexi) (exportInterval : Z)
  : M (option nat * option error) :=
  if exportInterval <=? 0 then ret (None, Some ErrNegativeOrZeroInterval)
  else
    fun rt =>
      Ok ((Some (length (tasks rt)), None),
          mkRuntime (heap rt) (spawned rt)
                    (tasks rt ++ [mkTask exportInterval false])).

(** The returned [cancel]: marks the task's context done. *)
Definition cancel (h : nat) : M unit :=
  fun rt =>
    Ok (tt, mkRuntime (heap rt) (spawned rt)
                      (alter (fun t => mkTask (exportInterval t) true) h (tasks rt))).

(** One iteration of the background loop of task [h], for the ticks the
    loop takes before it sees its context cancelled: on [<-t.C] it
    snapshots, resets and dispatches.  Two things are simplified.  The
    source releases [mux] before [go e.export(data)], so the place of a
    tick's dispatch among the dispatches of other calls is not fixed by the
    order of the snapshots; here it is recorded with the snapshot.  And a
    tick that was already due when [cancel] was called may still run in the
    source; it then acts on the sink as [Export(true)] does. *)
Definition tick (e : Evexi) (h : nat) : M Evexi :=
  fun rt =>
    match tasks rt !! h with
    | Some t =>
        if cancelled t then Ok (e, rt)
        else
          (do data <- bytes e;
           do e <- reset e;
           do _ <- go (export e) data;
           ret e) rt
    | None => Ok (e, rt)
    end.

Definition Write (e : Evexi) (data : list byte) : M (Evexi * (Z * option error)) :=
  do e <- (if bufferMaxSize e >? 0 then
             if int_add (go_len (buffer e)) (Z.of_nat (length data)) >? bufferMaxSize e then
               do data <- bytes e;
               do e <- reset e;
               do _ <- go (export e) data;
               ret e
             else ret e
           else ret e);
  do b <- append (buffer e) data;
  ret (set_buffer e b, (Z.of_nat (length data), None)).

Definition Bytes (e : Evexi) : M slice := bytes e.

Definition Reset (e : Evexi) : M Evexi := reset e.

(** ** Client programs: sequences of calls on one sink *)

Inductive op : Type :=
| OpWrite (data : list byte)
| OpExport (do_reset : bool)
| OpBytes
| OpReset
| OpIntervalExport (d : Z)
| OpCancel (h : nat)
| OpTick (h : nat).

Definition step (e : Evexi) (o : op) : M Evexi :=
  match o with
  | OpWrite data => do r <- Write e data; ret (fst r)
  | OpExport r => Export e r
  | OpBytes => do _ <- Bytes e; ret e
  | OpReset => Reset e
  | OpIntervalExport d => do _ <- IntervalExport e d; ret e
  | OpCancel h => do _ <- cancel h; ret e
  | OpTick h => tick e h
  end.

Fixpoint run (e : Evexi) (ops : list op) : M Evexi :=
  match ops with
  | [] => ret e
  | o :: ops => do e <- step e o; run e ops
  end.

(** Construct a sink, then make the calls on it. *)
Definition program (export : option ExportFn) (bufferMaxSize : Z)
  (ops : list op) : M (option Evexi) :=
  do r <- New export bufferMaxSize;
  match fst r with
  | Some e => do e <- run e ops; ret (Some e)
  | None => ret None
  end.

End Sink.

(** ** Well-formed slices *)

(** A slice header is valid in a runtime when its array exists, has exactly
    [cap] cells and holds at least [len] of them. *)
Definition slice_ok (rt : Runtime) (s : slice) : Prop :=
  (ptr s < length (heap rt))%nat /\
  length (array_at (heap rt) (ptr s)) = cap s /\
  (len s <= cap s)%nat.

(** The buffer after a reset is the old one cut to length zero ... *)
Definition reused_in_place (before after : slice) : Prop :=
  after = truncate before.

(** ... or lives in an array that did not exist before the reset. *)
Definition freshly_allocated (rt_before : Runtime) (after : slice) : Prop :=
  (length (heap rt_before) <= ptr after)%nat.

(** What a call may do to memory: the buffer it leaves is valid, arrays are
    only added, every array that existed and was not the buffer's is left
    as it was, and the new buffer is in the old one's array or in an array
    that did not exist. *)
Definition sink_frame (rt : Runtime) (e : Evexi) (rt' : Runtime) (e' : Evexi)
  : Prop :=
  slice_ok rt' (buffer e') /\
  (length (heap rt) <= length (heap rt'))%nat /\
  (forall q, (q < length (heap rt))%nat -> q <> ptr (buffer e) ->
             array_at (heap rt') q = array_at (heap rt) q) /\
  (ptr (buffer e') = ptr (buffer e) \/ (length (heap rt) <= ptr (buffer e'))%nat).

(** The outcome of a run is a sink whose flush count lies in a range, or a
    panic other than a division by zero. *)
Definition count_within (lo hi : Z) (r : result (Evexi * Runtime)) : Prop :=
  match r with
  | Ok (e, _) => lo <= bufCount e <= hi
  | Panic p => p <> DivideByZero
  end.

(** ** The adaptive policy in the specification's words

    Over mathematical integers: the new flush count, the new total, the
    average, and whether the buffer is to be reused. *)
Definition adaptive_policy (flushCount totalFlushedBytes buflen : Z)
  : Z * Z * Z * bool :=
  let flushCount := flushCount + 1 in
  let totalFlushedBytes := totalFlushedBytes + buflen in
  let avg := totalFlushedBytes / flushCount in
  (flushCount, totalFlushedBytes, avg, buflen <=? 2 * avg).

(** ** The disk exporter (disk.go) *)

(** Wall-clock time as [time.Now()] returns it, broken into fields. *)
Record Time : Type := mkTime {
  year : Z; month : Z; day : Z; hour : Z; minute : Z; second : Z
}.

(** The operating system as the exporter sees it: the clock, the working
    directory ([inr] when [os.Getwd] fails), which paths refuse a write and
    with what message, the successful [ioutil.WriteFile] calls and the lines
    given to [log.Println], both oldest first. *)
Record OS : Type := mkOS {
  now : Time;
  cwd : string + string;
  write_error : string -> option string;
  written : list (string * list byte * Z);
  logged : list (list string)
}.

Definition fileDateFormat : string := "2006_01_02-15_04_05".

(** [ioutil.WriteFile(path, data, perm)], with the error it returns. *)
Definition WriteFile (path : string) (data : list byte) (perm : Z) (os : OS)
  : option string * OS :=
  match write_error os path with
  | Some err => (Some err, os)
  | None =>
      (None, mkOS (now os) (cwd os) (write_error os)
                  (written os ++ [(path, data, perm)]) (logged os))
  end.

Definition Println (line : list string) (os : OS) : OS :=
  mkOS (now os) (cwd os) (write_error os) (written os) (logged os ++ [line]).

Section Disk.

(** [os.PathSeparator] and [time.Time.Format] belong to Go's library. *)
Variable PathSeparator : ascii.
Variable Format : Time -> string -> string.

(** The closure [ExportToDisk] returns, for a resolved directory. *)
Definition disk_callback (dir fileNamePrefix : string) (logData : list byte)
  (os : OS) : OS :=
  if (0 <? length logData)%nat then
    let logPath :=
      (dir ++ String PathSeparator EmptyString ++ fileNamePrefix ++ "_"
           ++ Format (now os) fileDateFormat ++ ".txt")%string in
    match WriteFile logPath logData 420 (* 0644 *) os with
    | (Some err, os) => Println ["Unable to export to disk:"; err]%string os
    | (None, os) => os
    end
  else os.

Definition ExportToDisk (os : OS) (path fileNamePrefix : string)
  : option (list byte -> OS -> OS) * option string :=
  match (if String.eqb path EmptyString then cwd os else inl path) with
  | inr err => (None, Some err)
  | inl dir => (Some (disk_callback dir fileNamePrefix), None)
  end.

End Disk.

(** An instance of [Format]: Go's layout interpretation for the zero-padded
    numeric fields [2006], [01], [02], [15], [04] and [05]; any other
    character stands for itself. *)
Definition digit (n : Z) : ascii := ascii_of_nat (48 + Z.to_nat (n mod 10)).

Definition pad2 (n : Z) : string := String (digit (n / 10)) (String (digit n) EmptyString).

Definition pad4 (n : Z) : string :=
  String (digit (n / 1000)) (String (digit (n / 100)) (pad2 n)).

Fixpoint layout_format (t : Time) (skip : nat) (layout : string) : string :=
  match layout with
  | EmptyString => EmptyString
  | String c rest =>
      match skip with
      | S k => layout_format t k rest
      | O =>
          if String.prefix "2006"%string layout then (pad4 (year t) ++ layout_format t 3 rest)%string
          else if String.prefix "01"%string layout then (pad2 (month t) ++ layout_format t 1 rest)%string
          else if String.prefix "02"%string layout then (pad2 (day t) ++ layout_format t 1 rest)%string
          else if String.prefix "15"%string layout then (pad2 (hour t) ++ layout_format t 1 rest)%string
          else if String.prefix "04"%string layout then (pad2 (minute t) ++ layout_format t 1 rest)%string
          else if String.prefix "05"%string layout then (pad2 (second t) ++ layout_format t 1 rest)%string
          else String c (layout_format t 0 rest)
      end
  end.

Definition go_format (t : Time) (layout : string) : string :=
  layout_format t 0 layout.

(** ** Sample values *)

Definition sample_fn : ExportFn := Callback 0.

Definition sample_time : Time := mkTime 2024 3 5 7 8 9.

Definition sample_os : OS :=
  mkOS sample_time (inl "/var/log"%string) (fun _ => None) [] [].

Definition abc : list byte := [x61; x62; x63].
Definition abcdef : list byte := [x61; x62; x63; x64; x65; x66].
Definition ghijkl : list byte := [x67; x68; x69; x6a; x6b; x6c].
Definition ten_bytes : list byte := replicate 10 x61.
Definition spike_25 : list byte := replicate 25 x62.

(** Three flushes of ten bytes, then a buffer of 25 waiting to be flushed. *)
Definition three_flushes_then_25 : list op :=
  [OpWrite ten_bytes; OpExport true; OpWrite ten_bytes; OpExport true;
   OpWrite ten_bytes; OpExport true; OpWrite spike_25].

(** A fixed-capacity sink of capacity 10 holding six bytes. *)
Definition six_of_ten : Evexi := mkEvexi (mkSlice 0 6 10) sample_fn 10 0 0.
Definition six_of_ten_rt : Runtime :=
  mkRuntime [abcdef ++ replicate 4 x00] [] [].

(** An empty fixed-capacity sink of capacity 3. *)
Definition empty_of_three : Evexi := mkEvexi (mkSlice 0 0 3) sample_fn 3 0 0.
Definition empty_of_three_rt : Runtime := mkRuntime [replicate 3 x00] [] [].

(** An adaptive sink that has flushed once, empty, and now holds three
    bytes. *)
Definition three_after_one : Evexi := mkEvexi (mkSlice 0 3 3) sample_fn 0 0 1.
Definition three_after_one_rt : Runtime := mkRuntime [abc] [] [].

(** ** Observations on runs *)

(** The inline sequence shared by [Export(true)], the ticker and the
    implicit flush of [Write]: snapshot, reset, dispatch. *)
Definition snapshot_reset_dispatch (e : Evexi) : M Evexi :=
  do data <- bytes e; do e <- reset e; do _ <- go (export e) data; ret e.

(** Every dispatched snapshot lives in an existing array that is not the
    buffer's. *)
Definition snapshots_ok (rt : Runtime) (e : Evexi) : Prop :=
  Forall (fun x : ExportFn * slice =>
            (ptr (snd x) < length (heap rt))%nat /\ ptr (snd x) <> ptr (buffer e))
         (spawned rt).

Definition sink_ok (rt : Runtime) (e : Evexi) : Prop :=
  slice_ok rt (buffer e) /\ snapshots_ok rt e.

(** From one valid state to a later one: exporter and capacity are the
    same, dispatches are only added, all to that exporter, and the bytes of
    those already made are unchanged. *)
Definition extends (rt : Runtime) (e : Evexi) (rt' : Runtime) (e' : Evexi)
  : Prop :=
  sink_ok rt' e' /\
  (exists news, spawned rt' = spawned rt ++ news /\
                Forall (fun x : ExportFn * slice => fst x = export e) news) /\
  Forall (fun x : ExportFn * slice => contents rt' (snd x) = contents rt (snd x))
         (spawned rt) /\
  export e' = export e /\ bufferMaxSize e' = bufferMaxSize e.

(** All bytes handed to the exporter so far, in dispatch order. *)
Definition dispatched (rt : Runtime) : list byte :=
  concat (map (fun x : ExportFn * slice => contents rt (snd x)) (spawned rt)).

(** The bytes a call appends, and all bytes a call sequence appends, in
    order. *)
Definition op_data (o : op) : list byte :=
  match o with
  | OpWrite data => data
  | _ => []
  end.

Definition appended (ops : list op) : list byte := concat (map op_data ops).

(** Calls that neither discard buffered bytes ([Reset]), nor dispatch them
    while keeping them ([Export(false)]), nor dispatch after releasing
    [mux] (the ticker, whose [go e.export(data)] may therefore come after
    the dispatch of a later snapshot). *)
Definition lossless (o : op) : Prop :=
  match o with
  | OpReset | OpExport false | OpTick _ => False
  | _ => True
  end.

(** Calls whose appends each fit the capacity on their own. *)
Definition fits (max : Z) (o : op) : Prop :=
  match o with
  | OpWrite data => Z.of_nat (length data) <= max
  | _ => True
  end.

(** ** MustExportToDisk (disk.go) *)

(** The returned closure, or the value given to [panic]. *)
Definition MustExportToDisk (PathSeparator : ascii)
    (Format : Time -> string -> string) (os : OS)
    (path fileNamePrefix : string)
  : option (list byte -> OS -> OS) + string :=
  match ExportToDisk PathSeparator Format os path fileNamePrefix with
  | (fn, Some err) => inr err
  | (fn, None) => inl fn
  end.

(** ** The S3 exporter (s3.go) *)

(** An AWS session is opaque here. *)
Inductive Session : Type :=
| AwsSession (id : nat).

(** The object store as the exporter sees it: the clock, which uploads fail
    and with what message, the successful uploads (uploader's session,
    bucket, key, body) and the lines given to [log.Println], oldest first. *)
Record Cloud : Type := mkCloud {
  cloud_now : Time;
  upload_error : Session -> string -> string -> option string;
  uploaded : list (Session * string * string * list byte);
  cloud_logged : list (list string)
}.

(** [uploader.Upload] with bucket, key and body, and the error it returns. *)
Definition Upload (sess : Session) (bucket key : string) (body : list byte)
  (w : Cloud) : option string * Cloud :=
  match upload_error w sess bucket key with
  | Some err => (Some err, w)
  | None =>
      (None, mkCloud (cloud_now w) (upload_error w)
                     (uploaded w ++ [(sess, bucket, key, body)]) (cloud_logged w))
  end.

Definition cloud_Println (line : list string) (w : Cloud) : Cloud :=
  mkCloud (cloud_now w) (upload_error w) (uploaded w) (cloud_logged w ++ [line]).

(** [strings.Builder]: the text written so far. *)
Definition WriteString (sb s : string) : string := (sb ++ s)%string.
Definition WriteByte (sb : string) (c : ascii) : string :=
  (sb ++ String c EmptyString)%string.

Section S3.

Variable Format : Time -> string -> string.

(** The closure [ExportToS3] returns, for a built key prefix. *)
Definition s3_callback (sess : Session) (bucket prefix : string)
  (logData : list byte) (w : Cloud) : Cloud :=
  if (0 <? length logData)%nat then
    let logName :=
      (prefix ++ "_" ++ Format (cloud_now w) fileDateFormat ++ ".txt")%string in
    match Upload sess bucket logName logData w with
    | (Some err, w) => cloud_Println ["Unable to upload to S3:"; err]%string w
    | (None, w) => w
    end
  else w.

Definition ExportToS3 (sess : Session) (bucket : string) (folders : list string)
  (fileNamePrefix : string) : list byte -> Cloud -> Cloud :=
  let sb := EmptyString in
  let sb := fold_left (fun sb folder => WriteByte (WriteString sb folder) "/")
                      folders sb in
  let sb := WriteString sb fileNamePrefix in
  let prefix := sb in
  s3_callback sess bucket prefix.

End S3.

Definition sample_session : Session := AwsSession 0.

Definition sample_cloud : Cloud :=
  mkCloud sample_time (fun _ _ _ => None) [] [].

(** A fixed-capacity sink of capacity 10 holding six bytes, with one task
    running. *)
Definition six_of_ten_ticking : Runtime :=
  mkRuntime [abcdef ++ replicate 4 x00] [] [mkTask 5 false].

(** A producer under steady load: each chunk is appended, then flushed. *)
Definition rounds (ds : list (list byte)) : list op :=
  flat_map (fun d => [OpWrite d; OpExport true]) ds.

(** A machine on which [os.Getwd] fails. *)
Definition no_cwd_os : OS :=
  mkOS sample_time (inr "getwd: no such file or directory"%string)
       (fun _ => None) [] [].

(** Calls on a sink of capacity 10: two appends that cross the threshold, a
    look at the buffer, a flush and one more append. *)
Definition busy_calls : list op :=
  [OpWrite abcdef; OpWrite ghijkl; OpBytes; OpExport true; OpWrite abc].

(** An adaptive sink that has flushed three bytes once and now holds three
    more. *)
Definition three_after_three : Evexi := mkEvexi (mkSlice 0 3 3) sample_fn 0 3 1.

(** * Properties *)

(** ** Integers *)

Lemma wrap_small (z : Z) : is_int z -> wrap z = z.
Proof.
  unfold is_int, int_min, int_max, wrap. intros H.
  rewrite Z.mod_small by lia. lia.
Qed.

Lemma int_add_small (a b : Z) : is_int (a + b) -> int_add a b = a + b.
Proof. apply wrap_small. Qed.

Lemma int_mul_small (a b : Z) : is_int (a * b) -> int_mul a b = a * b.
Proof. apply wrap_small. Qed.

Lemma int_quot_pos (a b : Z) :
  0 <= a <= int_max -> 1 <= b -> int_quot a b = Ok (a / b).
Proof.
  intros Ha Hb. unfold int_quot.
  destruct (Z.eqb_spec b 0) as [->|_]; [lia|].
  rewrite Z.quot_div_nonneg by lia. f_equal. apply wrap_small.
  pose proof (Z.div_pos a b ltac:(lia) ltac:(lia)).
  pose proof (Z.div_le_upper_bound a b a ltac:(lia) ltac:(nia)).
  unfold is_int, int_min, int_max in *. lia.
Qed.

(** ** Heap cells *)

Lemma array_at_app_l (h l : list (list byte)) (p : nat) :
  (p < length h)%nat -> array_at (h ++ l) p = array_at h p.
Proof. intros H. unfold array_at. by rewrite lookup_app_l. Qed.

Lemma array_at_app_r (h : list (list byte)) (a : list byte) :
  array_at (h ++ [a]) (length h) = a.
Proof. unfold array_at. by rewrite list_lookup_middle. Qed.

Lemma array_at_insert_eq (h : list (list byte)) (p : nat) (a : list byte) :
  (p < length h)%nat -> array_at (<[p:=a]> h) p = a.
Proof. intros H. unfold array_at. by rewrite list_lookup_insert_eq. Qed.

Lemma array_at_insert_ne (h : list (list byte)) (p q : nat) (a : list byte) :
  p <> q -> array_at (<[p:=a]> h) q = array_at h q.
Proof. intros H. unfold array_at. by rewrite list_lookup_insert_ne. Qed.

Lemma insert_last (h : list (list byte)) (a b : list byte) :
  <[length h := b]> (h ++ [a]) = h ++ [b].
Proof.
  replace (length h) with (length h + 0)%nat at 1 by lia.
  by rewrite insert_app_r.
Qed.

Lemma contents_length (rt : Runtime) (s : slice) :
  slice_ok rt s -> length (contents rt s) = len s.
Proof.
  intros (_ & Hc & Hl). unfold contents. rewrite length_take. lia.
Qed.

(** A runtime grows from another when the old arrays are a prefix of the
    new ones, cell for cell. *)
Lemma slice_ok_grow (rt : Runtime) (l : list (list byte)) (s : slice)
    (sp : list (ExportFn * slice)) (ts : list IntervalTask) :
  slice_ok rt s -> slice_ok (mkRuntime (heap rt ++ l) sp ts) s.
Proof.
  intros (Hp & Hc & Hl). unfold slice_ok. simpl.
  rewrite length_app, array_at_app_l by lia. repeat split; [lia|done|done].
Qed.

Lemma slice_ok_heap_app (rt rt' : Runtime) (l : list (list byte)) (s : slice) :
  heap rt' = heap rt ++ l -> slice_ok rt s -> slice_ok rt' s.
Proof.
  intros Hh (Hp & Hc & Hl). unfold slice_ok. rewrite Hh.
  rewrite length_app, array_at_app_l by lia. repeat split; [lia|done|done].
Qed.

(** ** The primitives *)

Lemma make_ok (n c : Z) (rt : Runtime) :
  0 <= n <= c ->
  make n c rt =
    Ok (mkSlice (length (heap rt)) (Z.to_nat n) (Z.to_nat c),
        mkRuntime (heap rt ++ [replicate (Z.to_nat c) x00]) (spawned rt) (tasks rt)).
Proof.
  intros H. unfold make.
  destruct (Z.ltb_spec n 0); [lia|]. destruct (Z.ltb_spec c n); [lia|]. done.
Qed.

Section Properties.

Variable growslack : nat -> nat -> nat.

(** [bytes] allocates one array holding the buffer's bytes and touches
    nothing else. *)
Lemma bytes_ok (e : Evexi) (rt : Runtime) :
  (ptr (buffer e) < length (heap rt))%nat ->
  bytes e rt =
    Ok (mkSlice (length (heap rt)) (len (buffer e)) (len (buffer e)),
        mkRuntime (heap rt ++ [contents rt (buffer e)]) (spawned rt) (tasks rt)).
Proof.
  intros Hp. unfold bytes, bind, go_len.
  rewrite make_ok by lia. unfold copy, ret. simpl.
  rewrite Nat2Z.id, Nat.min_id, insert_last, array_at_app_r.
  rewrite array_at_app_l by done.
  rewrite drop_replicate, Nat.sub_diag, app_nil_r. done.
Qed.

Lemma append_ok (s : slice) (data : list byte) (rt : Runtime) :
  slice_ok rt s ->
  exists s' rt',
    append growslack s data rt = Ok (s', rt') /\
    slice_ok rt' s' /\
    contents rt' s' = contents rt s ++ data /\
    (ptr s' = ptr s \/ ptr s' = length (heap rt)) /\
    (length (heap rt) <= length (heap rt'))%nat /\
    (forall q, (q < length (heap rt))%nat -> q <> ptr s ->
               array_at (heap rt') q = array_at (heap rt) q) /\
    spawned rt' = spawned rt /\ tasks rt' = tasks rt.
Proof.
  intros (Hp & Hc & Hl). unfold append.
  destruct (Nat.leb_spec (len s + length data) (cap s)) as [Hfit|Hgrow].
  - eexists _, _. split; [reflexivity|]. unfold slice_ok, contents. simpl.
    rewrite length_insert, array_at_insert_eq by done.
    rewrite !length_app, length_take, length_drop.
    split; [repeat split; lia|].
    split.
    { rewrite (app_assoc (take _ _)).
      rewrite take_app_length'; [done|].
      rewrite length_app, length_take. lia. }
    split; [by left|]. split; [lia|].
    split; [|done].
    intros q _ Hq. by rewrite array_at_insert_ne.
  - eexists _, _. split; [reflexivity|]. unfold slice_ok. simpl.
    rewrite length_app, array_at_app_r. simpl.
    assert (Hlen : length (contents rt s) = len s)
      by (apply contents_length; repeat split; done).
    rewrite !length_app, Hlen, length_replicate.
    split; [repeat split; lia|].
    split.
    { unfold contents at 1. simpl. rewrite array_at_app_r.
      rewrite (app_assoc (contents rt s)).
      rewrite take_app_length'; [done|]. rewrite length_app. lia. }
    split; [by right|]. split; [lia|].
    split; [|done].
    intros q Hq _. by rewrite array_at_app_l.
Qed.

(** ** The reset policy *)

Lemma reset_fixed_full (e : Evexi) (rt : Runtime) :
  bufferMaxSize e > 0 -> go_len (buffer e) >= bufferMaxSize e ->
  reset e rt =
    Ok (set_buffer e (mkSlice (length (heap rt)) 0 (Z.to_nat (bufferMaxSize e))),
        mkRuntime (heap rt ++ [replicate (Z.to_nat (bufferMaxSize e)) x00])
                  (spawned rt) (tasks rt)).
Proof.
  intros Hmax Hlen. unfold reset.
  rewrite Z.gtb_ltb. destruct (Z.ltb_spec 0 (bufferMaxSize e)); [|lia].
  rewrite Z.geb_leb. destruct (Z.leb_spec (bufferMaxSize e) (go_len (buffer e))); [|lia].
  unfold bind. rewrite make_ok by lia. done.
Qed.

Lemma reset_fixed_reuse (e : Evexi) (rt : Runtime) :
  bufferMaxSize e > 0 -> go_len (buffer e) < bufferMaxSize e ->
  reset e rt = Ok (set_buffer e (truncate (buffer e)), rt).
Proof.
  intros Hmax Hlen. unfold reset.
  rewrite Z.gtb_ltb. destruct (Z.ltb_spec 0 (bufferMaxSize e)); [|lia].
  rewrite Z.geb_leb. destruct (Z.leb_spec (bufferMaxSize e) (go_len (buffer e))); [lia|].
  done.
Qed.

Lemma truncate_ok (rt : Runtime) (s : slice) :
  slice_ok rt s -> slice_ok rt (truncate s).
Proof. intros (Hp & Hc & Hl). unfold slice_ok. simpl. repeat split; [done|done|lia]. Qed.

(** In fixed-capacity mode a reset always succeeds and leaves a valid, empty
    buffer: the old array cut to length zero, or a new array of
    [bufferMaxSize] cells. *)
Lemma reset_fixed_ok (e : Evexi) (rt : Runtime) :
  bufferMaxSize e > 0 -> slice_ok rt (buffer e) ->
  exists b l,
    reset e rt = Ok (set_buffer e b, mkRuntime (heap rt ++ l) (spawned rt) (tasks rt)) /\
    slice_ok (mkRuntime (heap rt ++ l) (spawned rt) (tasks rt)) b /\
    len b = 0%nat /\
    (ptr b = ptr (buffer e) \/ ptr b = length (heap rt)).
Proof.
  intros Hmax Hok.
  destruct (Z_lt_ge_dec (go_len (buffer e)) (bufferMaxSize e)) as [Hlt|Hge].
  - exists (truncate (buffer e)), []. rewrite reset_fixed_reuse by done.
    rewrite app_nil_r. split; [by destruct rt|].
    split; [|split; [done|by left]].
    apply truncate_ok. destruct Hok as (Hp & Hc & Hl).
    unfold slice_ok. simpl. done.
  - eexists _, _. rewrite reset_fixed_full by done.
    split; [reflexivity|]. unfold slice_ok. simpl.
    rewrite length_app, array_at_app_r, length_replicate. simpl.
    repeat split; lia.
Qed.

(** In adaptive mode, as long as the counters stay within [int], the code
    computes exactly the policy over mathematical integers. *)
Lemma reset_adaptive_ok (e : Evexi) (rt : Runtime) :
  bufferMaxSize e <= 0 ->
  0 <= bufCount e < int_max ->
  0 <= totalBufSize e ->
  2 * (totalBufSize e + go_len (buffer e)) <= int_max ->
  reset e rt =
    let '(c, t, avg, reuse) :=
      adaptive_policy (bufCount e) (totalBufSize e) (go_len (buffer e)) in
    if reuse then
      Ok (mkEvexi (truncate (buffer e)) (export e) (bufferMaxSize e) t c, rt)
    else
      Ok (mkEvexi (mkSlice (length (heap rt)) (Z.to_nat avg) (Z.to_nat avg))
                  (export e) (bufferMaxSize e) t c,
          mkRuntime (heap rt ++ [replicate (Z.to_nat avg) x00])
                    (spawned rt) (tasks rt)).
Proof.
  intros Hmax Hc Ht Hsum. unfold reset, adaptive_policy.
  rewrite Z.gtb_ltb. destruct (Z.ltb_spec 0 (bufferMaxSize e)); [lia|].
  assert (Hlen : 0 <= go_len (buffer e)) by (unfold go_len; lia).
  unfold int_max in *.
  simpl. rewrite !int_add_small by (unfold is_int, int_min, int_max; lia).
  unfold bind, lift. rewrite int_quot_pos by (unfold int_max; lia).
  set (t := totalBufSize e + go_len (buffer e)).
  set (c := bufCount e + 1).
  assert (Havg : 0 <= t / c <= t).
  { split; [apply Z.div_pos; lia|].
    apply Z.div_le_upper_bound; [lia|]. subst t c. nia. }
  rewrite int_mul_small by (unfold is_int, int_min, int_max; lia).
  rewrite (Z.mul_comm (t / c) 2).
  destruct (Z.leb_spec (go_len (buffer e)) (2 * (t / c))); [done|].
  rewrite make_ok by lia. done.
Qed.

(** ** Write *)

(** An append that does not cross the capacity threshold (or any append in
    adaptive mode) only extends the buffer. *)
Lemma Write_noflush (e : Evexi) (data : list byte) (rt : Runtime) :
  slice_ok rt (buffer e) ->
  (bufferMaxSize e > 0 ->
   go_len (buffer e) + Z.of_nat (length data) <= bufferMaxSize e <= int_max) ->
  exists b rt',
    Write growslack e data rt =
      Ok ((set_buffer e b, (Z.of_nat (length data), None)), rt') /\
    slice_ok rt' b /\
    contents rt' b = contents rt (buffer e) ++ data /\
    (length (heap rt) <= length (heap rt'))%nat /\
    (forall q, (q < length (heap rt))%nat -> q <> ptr (buffer e) ->
               array_at (heap rt') q = array_at (heap rt) q) /\
    spawned rt' = spawned rt /\ tasks rt' = tasks rt.
Proof.
  intros Hok Hfit.
  destruct (append_ok (buffer e) data rt Hok)
    as (b & rt' & Happ & Hok' & Hcont & _ & Hmono & Hframe & Hsp & Hts).
  exists b, rt'. split; [|done].
  unfold Write.
  assert (Hpre :
    (if bufferMaxSize e >? 0
     then if int_add (go_len (buffer e)) (Z.of_nat (length data)) >? bufferMaxSize e
          then do data0 <- bytes e; do e0 <- reset e; do _ <- go (export e0) data0; ret e0
          else ret e
     else ret e) = ret e).
  { rewrite Z.gtb_ltb. destruct (Z.ltb_spec 0 (bufferMaxSize e)) as [Hpos|]; [|done].
    assert (Hlen : 0 <= go_len (buffer e)) by (unfold go_len; lia).
    rewrite int_add_small by (unfold is_int, int_min, int_max in *; lia).
    rewrite Z.gtb_ltb.
    destruct (Z.ltb_spec (bufferMaxSize e)
                (go_len (buffer e) + Z.of_nat (length data))); [lia|done]. }
  rewrite Hpre. unfold bind, ret. rewrite Happ. done.
Qed.

Lemma slice_ok_heap (rt rt' : Runtime) (s : slice) :
  heap rt' = heap rt -> slice_ok rt s -> slice_ok rt' s.
Proof. unfold slice_ok. by intros ->. Qed.

Lemma contents_empty (rt : Runtime) (s : slice) :
  len s = 0%nat -> contents rt s = [].
Proof. unfold contents. by intros ->. Qed.

(** An append that crosses the threshold of a fixed-capacity sink copies
    the buffer, resets it, hands the copy to the exporter and only then
    appends. *)
Lemma Write_flush (e : Evexi) (data : list byte) (rt : Runtime) :
  slice_ok rt (buffer e) ->
  bufferMaxSize e > 0 ->
  go_len (buffer e) + Z.of_nat (length data) <= int_max ->
  go_len (buffer e) + Z.of_nat (length data) > bufferMaxSize e ->
  exists b rt',
    let snapshot := mkSlice (length (heap rt)) (len (buffer e)) (len (buffer e)) in
    Write growslack e data rt =
      Ok ((set_buffer e b, (Z.of_nat (length data), None)), rt') /\
    spawned rt' = spawned rt ++ [(export e, snapshot)] /\
    contents rt' snapshot = contents rt (buffer e) /\
    slice_ok rt' b /\
    contents rt' b = data /\
    ptr b <> ptr snapshot /\
    tasks rt' = tasks rt /\
    (length (heap rt) < length (heap rt'))%nat.
Proof.
  intros Hok Hmax Hint Hover.
  assert (Hp : (ptr (buffer e) < length (heap rt))%nat) by apply Hok.
  set (rt1 := mkRuntime (heap rt ++ [contents rt (buffer e)]) (spawned rt) (tasks rt)).
  assert (Hok1 : slice_ok rt1 (buffer e)) by (by apply slice_ok_grow).
  destruct (reset_fixed_ok e rt1 Hmax Hok1) as (b1 & l & Hreset & Hokb1 & Hlen1 & Hptr1).
  set (rt2 := mkRuntime (heap rt1 ++ l) (spawned rt1) (tasks rt1)) in *.
  set (snapshot := mkSlice (length (heap rt)) (len (buffer e)) (len (buffer e))).
  set (rt3 := mkRuntime (heap rt2) (spawned rt2 ++ [(export e, snapshot)]) (tasks rt2)).
  assert (Hok3 : slice_ok rt3 b1) by (by apply (slice_ok_heap rt2)).
  destruct (append_ok b1 data rt3 Hok3)
    as (b & rt' & Happ & Hok' & Hcont & Hptr & Hmono & Hframe & Hsp & Hts).
  exists b, rt'. simpl.
  split.
  { unfold Write.
    rewrite Z.gtb_ltb. destruct (Z.ltb_spec 0 (bufferMaxSize e)); [|lia].
    assert (Hlen : 0 <= go_len (buffer e)) by (unfold go_len; lia).
    rewrite int_add_small by (unfold is_int, int_min, int_max in *; lia).
    rewrite Z.gtb_ltb.
    destruct (Z.ltb_spec (bufferMaxSize e)
                (go_len (buffer e) + Z.of_nat (length data))); [|lia].
    unfold bind at 1 2. rewrite bytes_ok by done. fold rt1.
    unfold bind at 1. rewrite Hreset. unfold bind, go, ret. simpl.
    match goal with
    | |- context [append growslack b1 data ?r] => change r with rt3
    end.
    rewrite Happ. done. }
  assert (Hne : ptr b1 <> length (heap rt)).
  { destruct Hptr1 as [->| ->]; [lia|]. simpl. rewrite length_app. simpl. lia. }
  assert (Hlt3 : (length (heap rt) < length (heap rt3))%nat).
  { simpl. rewrite !length_app. simpl. lia. }
  split; [by rewrite Hsp|].
  split.
  { unfold contents at 1. simpl. rewrite Hframe by (done || by apply not_eq_sym).
    simpl. rewrite array_at_app_l by (rewrite length_app; simpl; lia).
    rewrite array_at_app_r. apply take_ge.
    rewrite contents_length by done. lia. }
  split; [done|].
  split; [by rewrite Hcont, (contents_empty rt3 b1 Hlen1)|].
  split; [simpl; destruct Hptr as [->| ->]; [done|lia]|].
  split; [by rewrite Hts|lia].
Qed.

(** ** New and Bytes *)

Lemma New_ok (fn : ExportFn) (max : Z) (rt : Runtime) :
  New (Some fn) max rt =
    Ok ((Some (mkEvexi (mkSlice (length (heap rt)) 0 (Z.to_nat max)) fn max 0 0), None),
        mkRuntime (heap rt ++ [replicate (Z.to_nat max) x00]) (spawned rt) (tasks rt)).
Proof.
  unfold New, bind, ret. rewrite Z.gtb_ltb.
  destruct (Z.ltb_spec 0 max).
  - rewrite make_ok by lia. done.
  - rewrite make_ok by lia. replace (Z.to_nat max) with 0%nat by lia. done.
Qed.

Lemma Bytes_ok (e : Evexi) (rt : Runtime) :
  slice_ok rt (buffer e) ->
  exists out rt',
    Bytes e rt = Ok (out, rt') /\
    contents rt' out = contents rt (buffer e) /\
    ptr out = length (heap rt) /\
    heap rt' = heap rt ++ [contents rt (buffer e)] /\
    spawned rt' = spawned rt /\ tasks rt' = tasks rt.
Proof.
  intros Hok. unfold Bytes. rewrite bytes_ok by apply Hok.
  eexists _, _. split; [reflexivity|]. simpl. split; [|done].
  unfold contents at 1. simpl. rewrite array_at_app_r.
  apply take_ge. rewrite contents_length by done. lia.
Qed.

Lemma New_valid (fn : ExportFn) (max : Z) (rt : Runtime) :
  exists b rt',
    New (Some fn) max rt = Ok ((Some (mkEvexi b fn max 0 0), None), rt') /\
    len b = 0%nat /\
    slice_ok rt' b /\
    spawned rt' = spawned rt /\ tasks rt' = tasks rt.
Proof.
  eexists _, _. rewrite New_ok. split; [reflexivity|].
  unfold slice_ok. simpl.
  rewrite length_app, array_at_app_r, length_replicate. simpl.
  repeat split; lia.
Qed.

Lemma run_app (e : Evexi) (ops1 ops2 : list op) (rt : Runtime) :
  run growslack e (ops1 ++ ops2) rt =
    (do e' <- run growslack e ops1; run growslack e' ops2) rt.
Proof.
  revert e rt. induction ops1 as [|o ops1 IH]; intros e rt; simpl.
  - done.
  - unfold bind. destruct (step growslack e o rt) as [[e1 rt1]|p]; [|done].
    rewrite IH. done.
Qed.

(** ** Memory discipline of the sink *)

Lemma sink_frame_refl (rt : Runtime) (e : Evexi) :
  slice_ok rt (buffer e) -> sink_frame rt e rt e.
Proof.
  intros Hok. unfold sink_frame.
  split; [done|]. split; [lia|]. split; [done|by left].
Qed.

Lemma sink_frame_trans (rt rt1 rt2 : Runtime) (e e1 e2 : Evexi) :
  slice_ok rt (buffer e) ->
  sink_frame rt e rt1 e1 -> sink_frame rt1 e1 rt2 e2 -> sink_frame rt e rt2 e2.
Proof.
  intros (Hp & _) (Hok1 & Hm1 & Hf1 & Hp1) (Hok2 & Hm2 & Hf2 & Hp2).
  unfold sink_frame. split; [done|]. split; [lia|]. split.
  - intros q Hq Hne. rewrite Hf2; [by apply Hf1|lia|].
    destruct Hp1 as [->|Hfresh]; [done|lia].
  - destruct Hp2 as [->|Hfresh2]; [done|right; lia].
Qed.

(** A step that only adds arrays and keeps the buffer. *)
Lemma sink_frame_alloc (rt : Runtime) (e : Evexi) (l : list (list byte))
    (sp : list (ExportFn * slice)) (ts : list IntervalTask) :
  slice_ok rt (buffer e) ->
  sink_frame rt e (mkRuntime (heap rt ++ l) sp ts) e.
Proof.
  intros Hok. unfold sink_frame. simpl.
  split; [by apply slice_ok_grow|].
  split; [rewrite length_app; lia|].
  split; [|by left].
  intros q Hq _. by apply array_at_app_l.
Qed.

Lemma sink_frame_same_heap (rt rt' : Runtime) (e : Evexi) :
  heap rt' = heap rt -> slice_ok rt (buffer e) -> sink_frame rt e rt' e.
Proof.
  intros Hh Hok. unfold sink_frame. rewrite Hh.
  split; [by apply (slice_ok_heap rt)|]. split; [lia|]. split; [done|by left].
Qed.

Lemma make_inv (n c : Z) (rt : Runtime) (s : slice) (rt' : Runtime) :
  make n c rt = Ok (s, rt') ->
  0 <= n <= c /\
  s = mkSlice (length (heap rt)) (Z.to_nat n) (Z.to_nat c) /\
  rt' = mkRuntime (heap rt ++ [replicate (Z.to_nat c) x00]) (spawned rt) (tasks rt).
Proof.
  unfold make. destruct (Z.ltb_spec n 0); [done|].
  destruct (Z.ltb_spec c n); [done|]. intros [= <- <-]. repeat split; lia.
Qed.

(** A buffer replaced by the result of [make]. *)
Lemma sink_frame_make (n c : Z) (rt : Runtime) (e : Evexi) (s : slice)
    (rt' : Runtime) :
  make n c rt = Ok (s, rt') -> sink_frame rt e rt' (set_buffer e s).
Proof.
  intros (Hnc & -> & ->)%make_inv. unfold sink_frame, slice_ok. simpl.
  rewrite length_app, array_at_app_r, length_replicate. simpl.
  split; [repeat split; lia|]. split; [lia|].
  split; [|right; lia]. intros q Hq _. by apply array_at_app_l.
Qed.

Lemma reset_frame (e e' : Evexi) (rt rt' : Runtime) :
  slice_ok rt (buffer e) ->
  reset e rt = Ok (e', rt') -> sink_frame rt e rt' e'.
Proof.
  intros Hok. unfold reset.
  assert (Htrunc : forall e0, buffer e0 = buffer e ->
            sink_frame rt e rt (set_buffer e0 (truncate (buffer e0)))).
  { intros e0 He0. unfold sink_frame. simpl. rewrite He0.
    split; [by apply truncate_ok|]. split; [lia|]. split; [done|by left]. }
  destruct (bufferMaxSize e >? 0).
  - destruct (go_len (buffer e) >=? bufferMaxSize e).
    + unfold bind. destruct (make 0 (bufferMaxSize e) rt) as [[b rt1]|p] eqn:Hmk;
        [|done].
      intros [= <- <-]. by apply (sink_frame_make 0 (bufferMaxSize e)).
    + intros [= <- <-]. by apply Htrunc.
  - simpl. unfold bind, lift.
    destruct (int_quot _ _) as [avg|p]; [|done].
    destruct (_ <=? _).
    + intros [= <- <-]. by apply (Htrunc (mkEvexi _ _ _ _ _)).
    + destruct (make avg avg rt) as [[b rt1]|p] eqn:Hmk; [|done].
      intros [= <- <-].
      apply (sink_frame_make avg avg rt
               (mkEvexi (buffer e) (export e) (bufferMaxSize e)
                  (int_add (totalBufSize e) (go_len (buffer e)))
                  (int_add (bufCount e) 1)) b rt1) in Hmk.
      exact Hmk.
Qed.

(** The snapshot, reset and dispatch shared by [Export], the ticker and the
    implicit flush of [Write]. *)
Lemma flush_frame (e e' : Evexi) (rt rt' : Runtime) :
  slice_ok rt (buffer e) ->
  (do data <- bytes e; do e <- reset e; do _ <- go (export e) data; ret e) rt
    = Ok (e', rt') ->
  sink_frame rt e rt' e'.
Proof.
  intros Hok. unfold bind at 1. rewrite bytes_ok by apply Hok.
  set (rt1 := mkRuntime _ _ _).
  assert (Hf1 : sink_frame rt e rt1 e) by (by apply sink_frame_alloc).
  unfold bind at 1. destruct (reset e rt1) as [[e1 rt2]|p] eqn:Hr; [|done].
  apply reset_frame in Hr; [|apply Hf1].
  unfold bind, go, ret. intros [= <- <-].
  apply (sink_frame_trans rt rt1 _ e e e1); [done|done|].
  destruct Hr as (Hok2 & Hr). split; [|exact Hr].
  by apply (slice_ok_heap rt2).
Qed.

Lemma append_frame (e : Evexi) (data : list byte) (rt : Runtime) :
  slice_ok rt (buffer e) ->
  exists b rt',
    append growslack (buffer e) data rt = Ok (b, rt') /\
    sink_frame rt e rt' (set_buffer e b).
Proof.
  intros Hok.
  destruct (append_ok (buffer e) data rt Hok)
    as (b & rt' & Happ & Hok' & _ & Hptr & Hmono & Hframe & _).
  exists b, rt'. split; [done|]. unfold sink_frame. simpl.
  split; [done|]. split; [done|]. split; [done|].
  destruct Hptr as [->| ->]; [by left|right; lia].
Qed.

Lemma step_frame (e e' : Evexi) (o : op) (rt rt' : Runtime) :
  slice_ok rt (buffer e) ->
  step growslack e o rt = Ok (e', rt') -> sink_frame rt e rt' e'.
Proof.
  intros Hok. destruct o as [data|r| | |d|h|h]; simpl.
  - unfold Write.
    match goal with
    | |- context [bind ?m _] =>
        match m with
        | (if _ then _ else _) => set (pre := m)
        end
    end.
    assert (Hpre : forall e1 rt1, pre rt = Ok (e1, rt1) -> sink_frame rt e rt1 e1).
    { subst pre. intros e1 rt1.
      destruct (bufferMaxSize e >? 0);
        [destruct (_ >? _)|]; try (intros [= <- <-]; by apply sink_frame_refl).
      by apply flush_frame. }
    unfold bind at 1 2. destruct (pre rt) as [[e1 rt1]|p]; [|done].
    specialize (Hpre e1 rt1 eq_refl).
    destruct (append_frame e1 data rt1) as (b & rt2 & Happ & Hf2); [apply Hpre|].
    unfold bind at 1. rewrite Happ. unfold bind, ret. simpl. intros [= <- <-].
    by apply (sink_frame_trans rt rt1 rt2 e e1).
  - unfold Export. destruct r; [by apply flush_frame|].
    unfold bind at 1. rewrite bytes_ok by apply Hok.
    unfold bind, go, ret. simpl. intros [= <- <-].
    by apply sink_frame_alloc.
  - unfold Bytes, bind. rewrite bytes_ok by apply Hok.
    unfold ret. intros [= <- <-]. by apply sink_frame_alloc.
  - by apply reset_frame.
  - unfold bind, IntervalExport, ret.
    destruct (d <=? 0); intros [= <- <-]; by apply sink_frame_same_heap.
  - unfold bind, cancel, ret. intros [= <- <-]. by apply sink_frame_same_heap.
  - unfold tick. destruct (tasks rt !! h) as [t|];
      [|intros [= <- <-]; by apply sink_frame_refl].
    destruct (cancelled t); [intros [= <- <-]; by apply sink_frame_refl|].
    by apply flush_frame.
Qed.

Lemma run_frame (ops : list op) (e e' : Evexi) (rt rt' : Runtime) :
  slice_ok rt (buffer e) ->
  run growslack e ops rt = Ok (e', rt') -> sink_frame rt e rt' e'.
Proof.
  revert e rt. induction ops as [|o ops IH]; intros e rt Hok; simpl.
  - unfold ret. intros [= <- <-]. by apply sink_frame_refl.
  - unfold bind. destruct (step growslack e o rt) as [[e1 rt1]|p] eqn:Hs; [|done].
    apply step_frame in Hs; [|done]. intros Hr.
    apply IH in Hr; [|apply Hs].
    by apply (sink_frame_trans rt rt1 rt' e e1).
Qed.

(** Every state a client can reach from [New] has a valid buffer. *)
Lemma reachable_slice_ok (fn : ExportFn) (max : Z) (ops : list op)
    (rt0 rt : Runtime) (e : Evexi) :
  program growslack (Some fn) max ops rt0 = Ok (Some e, rt) ->
  slice_ok rt (buffer e).
Proof.
  unfold program. unfold bind at 1.
  destruct (New_valid fn max rt0) as (b0 & rt1 & -> & _ & Hok0 & _).
  cbn [fst]. unfold bind.
  destruct (run growslack _ ops rt1) as [[e1 rt2]|p] eqn:Hr; [|done].
  unfold ret. intros [= <- <-].
  apply run_frame in Hr; [apply Hr|done].
Qed.

(** What was copied out of the sink stays as it was: no later call changes
    an array that is not the buffer's own. *)
Lemma run_keeps_copies (ops : list op) (e e' : Evexi) (rt rt' : Runtime)
    (s : slice) :
  slice_ok rt (buffer e) ->
  (ptr s < length (heap rt))%nat -> ptr s <> ptr (buffer e) ->
  run growslack e ops rt = Ok (e', rt') ->
  contents rt' s = contents rt s /\ ptr s <> ptr (buffer e').
Proof.
  intros Hok Hp Hne Hr. apply run_frame in Hr; [|done].
  destruct Hr as (_ & _ & Hf & Hptr). unfold contents.
  split; [by rewrite Hf|]. destruct Hptr as [->|Hfresh]; [done|lia].
Qed.

Lemma run_writes (ds : list (list byte)) (e : Evexi) (rt : Runtime) :
  slice_ok rt (buffer e) ->
  (bufferMaxSize e > 0 ->
   go_len (buffer e) + Z.of_nat (length (concat ds)) <= bufferMaxSize e <= int_max) ->
  exists b rt',
    run growslack e (map OpWrite ds) rt = Ok (set_buffer e b, rt') /\
    slice_ok rt' b /\
    contents rt' b = contents rt (buffer e) ++ concat ds /\
    spawned rt' = spawned rt.
Proof.
  revert e rt. induction ds as [|d ds IH]; intros e rt Hok Hfit.
  - exists (buffer e), rt. simpl. rewrite app_nil_r. by destruct e.
  - simpl in Hfit. rewrite length_app in Hfit.
    destruct (Write_noflush e d rt Hok ltac:(lia))
      as (b1 & rt1 & HW & Hok1 & Hc1 & _ & _ & Hsp1 & _).
    assert (Hlen1 : len b1 = (len (buffer e) + length d)%nat).
    { rewrite <- (contents_length rt1 b1 Hok1), Hc1, length_app.
      by rewrite contents_length. }
    destruct (IH (set_buffer e b1) rt1 Hok1) as (b & rt' & Hrun & Hok' & Hc & Hsp).
    { simpl. unfold go_len in *. lia. }
    exists b, rt'. simpl. unfold bind at 1 2. rewrite HW. simpl.
    rewrite Hrun. simpl in Hc.
    rewrite Hc, Hc1, <- app_assoc, Hsp, Hsp1. done.
Qed.

(** ** Construction, appends and interval export *)

(** C7.  [New] returns [ErrExportFuncNotSet] exactly when the exporter is
    nil, and then no sink and an untouched runtime.  Whenever it returns for
    a non-nil exporter it returns a sink and a nil error: the buffer is
    empty, its array is new, and its capacity is [bufferMaxSize] if that is
    positive and 0 otherwise; both counters start at 0.  (Whether the
    allocator grants a positive capacity is outside the model, so the
    success of that allocation is a premise; with no capacity to allocate
    construction always succeeds.) *)
Theorem New_fails_iff_export_nil (cb : option ExportFn) (max : Z) (rt : Runtime) :
  (cb = None <->
   New cb max rt = Ok ((None, Some ErrExportFuncNotSet), rt)) /\
  (forall r rt',
     New cb max rt = Ok (r, rt') ->
     match cb with
     | None => r = (None, Some ErrExportFuncNotSet) /\ rt' = rt
     | Some fn =>
         exists e,
           r = (Some e, None) /\
           export e = fn /\ bufferMaxSize e = max /\
           totalBufSize e = 0 /\ bufCount e = 0 /\
           go_len (buffer e) = 0 /\
           go_cap (buffer e) = (if max >? 0 then max else 0) /\
           freshly_allocated rt (buffer e) /\ slice_ok rt' (buffer e)
     end) /\
  (max <= 0 -> cb <> None ->
   exists e rt', New cb max rt = Ok ((Some e, None), rt')).
Proof.
  destruct cb as [fn|].
  - split; [split; [done|by rewrite New_ok]|]. split.
    + intros r rt'. rewrite New_ok. intros [= <- <-].
      eexists. split; [reflexivity|].
      unfold go_len, go_cap, freshly_allocated, slice_ok. simpl.
      rewrite length_app, array_at_app_r, length_replicate. simpl.
      rewrite Z.gtb_ltb. destruct (Z.ltb_spec 0 max); repeat split; lia.
    + intros _ _. eexists _, _. by rewrite New_ok.
  - split; [done|]. split; [|done].
    intros r rt'. unfold New, ret. by intros [= <- <-].
Qed.

(** C3.  In fixed-capacity mode an append with
    [len(buffer) + len(data) > bufferMaxSize] first copies the buffer, resets
    it and dispatches the copy to the exporter, so that afterwards the
    buffer holds exactly [data].  With capacity 10, two appends of 6 bytes
    dispatch the exporter once, on the first 6 bytes, and [Bytes] then
    returns the second 6. *)
Theorem Write_over_capacity_flushes_first :
  (forall (e : Evexi) (data : list byte) (rt : Runtime),
     slice_ok rt (buffer e) ->
     bufferMaxSize e > 0 ->
     go_len (buffer e) + Z.of_nat (length data) <= int_max ->
     go_len (buffer e) + Z.of_nat (length data) > bufferMaxSize e ->
     exists b rt' snapshot,
       Write growslack e data rt =
         Ok ((set_buffer e b, (Z.of_nat (length data), None)), rt') /\
       spawned rt' = spawned rt ++ [(export e, snapshot)] /\
       contents rt' snapshot = contents rt (buffer e) /\
       ptr snapshot <> ptr b /\
       contents rt' b = data) /\
  (forall (fn : ExportFn) (d1 d2 : list byte),
     length d1 = 6%nat -> length d2 = 6%nat ->
     exists e0 rt0 e1 rt1 e2 rt2 out rt3 snapshot,
       New (Some fn) 10 empty_runtime = Ok ((Some e0, None), rt0) /\
       Write growslack e0 d1 rt0 = Ok ((e1, (6, None)), rt1) /\
       Write growslack e1 d2 rt1 = Ok ((e2, (6, None)), rt2) /\
       Bytes e2 rt2 = Ok (out, rt3) /\
       spawned rt3 = [(fn, snapshot)] /\
       contents rt3 snapshot = d1 /\
       contents rt3 out = d2).
Proof.
  split.
  - intros e data rt Hok Hmax Hint Hover.
    destruct (Write_flush e data rt Hok Hmax Hint Hover)
      as (b & rt' & HW & Hsp & Hsnap & _ & Hc & Hne & _).
    exists b, rt'. eexists. repeat split; eauto.
  - intros fn d1 d2 H1 H2.
    destruct (New_valid fn 10 empty_runtime)
      as (b0 & rt0 & HN & Hb0 & Hok0 & Hsp0 & _).
    set (e0 := mkEvexi b0 fn 10 0 0) in *.
    assert (Hmax : bufferMaxSize e0 = 10) by done.
    assert (Hfn : export e0 = fn) by done.
    destruct (Write_noflush e0 d1 rt0 Hok0)
      as (b1 & rt1 & HW1 & Hok1 & Hc1 & _ & _ & Hsp1 & _).
    { simpl. unfold go_len, int_max. rewrite Hb0, H1. lia. }
    simpl in Hc1. rewrite (contents_empty rt0 _ Hb0) in Hc1. simpl in Hc1.
    assert (Hl1 : len b1 = 6%nat).
    { by rewrite <- (contents_length rt1 b1 Hok1), Hc1. }
    destruct (Write_flush (set_buffer e0 b1) d2 rt1 Hok1)
      as (b2 & rt2 & HW2 & Hsp2 & Hsnap & Hok2 & Hc2 & Hne & _ & Hgrow).
    { simpl. lia. }
    { simpl. unfold go_len, int_max. rewrite Hl1, H2. lia. }
    { simpl. unfold go_len. rewrite Hl1, H2. lia. }
    destruct (Bytes_ok (set_buffer (set_buffer e0 b1) b2) rt2 Hok2)
      as (out & rt3 & HB & Hco & Hpo & Hh3 & Hsp3 & _).
    rewrite H1 in HW1. rewrite H2 in HW2.
    exists e0, rt0, (set_buffer e0 b1), rt1, (set_buffer (set_buffer e0 b1) b2), rt2, out, rt3.
    eexists. split; [exact HN|]. split; [exact HW1|]. split; [exact HW2|].
    split; [exact HB|].
    split; [by rewrite Hsp3, Hsp2, Hsp1, Hsp0|].
    split; [|by rewrite Hco].
    simpl in Hsnap. rewrite <- Hc1, <- Hsnap.
    unfold contents. rewrite Hh3. simpl.
    by rewrite array_at_app_l.
Qed.

(** C6.  In fixed-capacity mode an append whose data alone is longer than
    [bufferMaxSize] is taken whole: the call returns [len(data)] and no
    error, the earlier contents go to the exporter in a single dispatch, and
    the buffer is left holding all of [data], longer than [bufferMaxSize]. *)
Theorem Write_oversized_kept_whole (e : Evexi) (data : list byte) (rt : Runtime) :
  slice_ok rt (buffer e) ->
  bufferMaxSize e > 0 ->
  Z.of_nat (length data) > bufferMaxSize e ->
  go_len (buffer e) + Z.of_nat (length data) <= int_max ->
  exists e' rt' snapshot,
    Write growslack e data rt = Ok ((e', (Z.of_nat (length data), None)), rt') /\
    spawned rt' = spawned rt ++ [(export e, snapshot)] /\
    contents rt' snapshot = contents rt (buffer e) /\
    contents rt' (buffer e') = data /\
    go_len (buffer e') = Z.of_nat (length data) /\
    go_len (buffer e') > bufferMaxSize e' /\
    bufferMaxSize e' = bufferMaxSize e.
Proof.
  intros Hok Hmax Hbig Hint.
  destruct (Write_flush e data rt Hok Hmax Hint)
    as (b & rt' & HW & Hsp & Hsnap & Hok' & Hc & _).
  { unfold go_len. lia. }
  exists (set_buffer e b), rt'. eexists.
  split; [exact HW|]. split; [exact Hsp|]. split; [exact Hsnap|].
  assert (Hl : go_len b = Z.of_nat (length data)).
  { unfold go_len. by rewrite <- (contents_length rt' b Hok'), Hc. }
  simpl. rewrite Hl. repeat split; try done.
Qed.

(** C5.  On a sink that [New] has just returned, appends that never reach
    a fixed-capacity flush leave [Bytes] returning their concatenation in
    order, in an array allocated by that call and distinct from the
    buffer's, while the buffer keeps the same bytes; whatever is called on
    the sink afterwards, the returned bytes stay as they were and never
    share the buffer's array. *)
Theorem Bytes_is_private_concatenation (fn : ExportFn) (max : Z)
    (ds : list (list byte)) (rt0 rt1 : Runtime) (e0 : Evexi) :
  New (Some fn) max rt0 = Ok ((Some e0, None), rt1) ->
  (max > 0 -> Z.of_nat (length (concat ds)) <= max <= int_max) ->
  exists e rt out rt',
    run growslack e0 (map OpWrite ds) rt1 = Ok (e, rt) /\
    Bytes e rt = Ok (out, rt') /\
    contents rt' out = concat ds /\
    freshly_allocated rt out /\
    ptr out <> ptr (buffer e) /\
    contents rt' (buffer e) = concat ds /\
    spawned rt' = spawned rt0 /\
    forall later e2 rt2,
      run growslack e later rt' = Ok (e2, rt2) ->
      contents rt2 out = concat ds /\ ptr out <> ptr (buffer e2).
Proof.
  intros HNew Hfit.
  destruct (New_valid fn max rt0) as (b0 & rt1' & HN & Hb0 & Hok0 & Hsp0 & _).
  rewrite HNew in HN. injection HN as -> ->.
  set (e0 := mkEvexi b0 fn max 0 0) in *.
  destruct (run_writes ds e0 rt1' Hok0) as (b & rt & Hrun & Hok & Hc & Hsp).
  { simpl. unfold go_len. rewrite Hb0. lia. }
  simpl in Hc. rewrite (contents_empty rt1' _ Hb0) in Hc. simpl in Hc.
  destruct (Bytes_ok (set_buffer e0 b) rt Hok)
    as (out & rt' & HB & Hco & Hpo & Hh & Hsp' & _).
  exists (set_buffer e0 b), rt, out, rt'.
  split; [exact Hrun|]. split; [exact HB|].
  assert (Hp : (ptr b < length (heap rt))%nat) by apply Hok.
  assert (Hne : ptr out <> ptr b) by lia.
  assert (Hcb : contents rt' b = concat ds).
  { rewrite <- Hc. unfold contents. rewrite Hh. by rewrite array_at_app_l. }
  simpl in *.
  split; [by rewrite Hco|].
  split; [unfold freshly_allocated; lia|].
  split; [exact Hne|].
  split; [exact Hcb|].
  split; [by rewrite Hsp', Hsp, Hsp0|].
  intros later e2 rt2 Hlater.
  destruct (run_keeps_copies later (set_buffer e0 b) e2 rt' rt2 out)
    as (Hkeep & Hne2); try done.
  - apply (slice_ok_heap_app rt rt' [contents rt b]); done.
  - rewrite Hh, length_app. simpl. lia.
  - split; [|exact Hne2]. by rewrite Hkeep, Hco.
Qed.

(** C8.  [IntervalExport] with a period that is zero or negative returns a
    nil cancel function and [ErrNegativeOrZeroInterval], and changes neither
    the sink nor the runtime, so every later call behaves as if it had not
    been made.  With a positive period it returns a cancel function and a
    nil error, having started one task with that period. *)
Theorem IntervalExport_rejects_nonpositive (e : Evexi) (d : Z) (rt : Runtime) :
  (d <= 0 ->
   IntervalExport e d rt = Ok ((None, Some ErrNegativeOrZeroInterval), rt) /\
   forall ops, run growslack e (OpIntervalExport d :: ops) rt = run growslack e ops rt) /\
  (d > 0 ->
   exists h rt',
     IntervalExport e d rt = Ok ((Some h, None), rt') /\
     tasks rt' = tasks rt ++ [mkTask d false] /\
     tasks rt' !! h = Some (mkTask d false) /\
     heap rt' = heap rt /\ spawned rt' = spawned rt).
Proof.
  unfold IntervalExport. split; intros Hd.
  - split.
    + destruct (Z.leb_spec d 0); [done|lia].
    + intros ops. simpl. unfold bind, IntervalExport, ret.
      destruct (Z.leb_spec d 0); [done|lia].
  - destruct (Z.leb_spec d 0); [lia|].
    eexists _, _. split; [reflexivity|]. simpl.
    split; [done|]. split; [|done].
    by rewrite list_lookup_middle.
Qed.

(** C4.  In adaptive mode, with counters inside [int], [reset] increments
    [bufCount], adds the buffer's length to [totalBufSize], divides the new
    total by the new count (integer division), and then either cuts the
    buffer to length zero in place, when its length is at most twice that
    average (same array, same capacity, no bytes left), or replaces it by a
    new array whose capacity is the average (and whose length, as
    [make([]byte, avgBufSize)] has it, is the average too, all zero
    bytes). *)
Theorem reset_adaptive_steps (e : Evexi) (rt : Runtime) :
  bufferMaxSize e <= 0 ->
  0 <= bufCount e < int_max ->
  0 <= totalBufSize e ->
  2 * (totalBufSize e + go_len (buffer e)) <= int_max ->
  exists e' rt',
    reset e rt = Ok (e', rt') /\
    export e' = export e /\ bufferMaxSize e' = bufferMaxSize e /\
    let flushCount := bufCount e + 1 in
    let totalFlushedBytes := totalBufSize e + go_len (buffer e) in
    let avg := totalFlushedBytes / flushCount in
    adaptive_policy (bufCount e) (totalBufSize e) (go_len (buffer e)) =
      (bufCount e', totalBufSize e', avg, go_len (buffer e) <=? 2 * avg) /\
    bufCount e' = flushCount /\
    totalBufSize e' = totalFlushedBytes /\
    (go_len (buffer e) <= 2 * avg ->
     reused_in_place (buffer e) (buffer e') /\
     ptr (buffer e') = ptr (buffer e) /\
     go_cap (buffer e') = go_cap (buffer e) /\
     go_len (buffer e') = 0 /\
     contents rt' (buffer e') = [] /\
     rt' = rt) /\
    (go_len (buffer e) > 2 * avg ->
     freshly_allocated rt (buffer e') /\
     go_cap (buffer e') = avg /\
     go_len (buffer e') = avg /\
     contents rt' (buffer e') = replicate (Z.to_nat avg) x00 /\
     heap rt' = heap rt ++ [replicate (Z.to_nat avg) x00] /\
     spawned rt' = spawned rt /\ tasks rt' = tasks rt).
Proof.
  intros Hmax Hc Ht Hsum.
  rewrite (reset_adaptive_ok e rt Hmax Hc Ht Hsum).
  unfold adaptive_policy.
  set (c := bufCount e + 1). set (t := totalBufSize e + go_len (buffer e)).
  assert (Havg : 0 <= t / c).
  { apply Z.div_pos; subst t c; unfold go_len; lia. }
  destruct (Z.leb_spec (go_len (buffer e)) (2 * (t / c))) as [Hle|Hgt].
  - eexists _, _. split; [reflexivity|]. simpl.
    repeat split; try done; lia.
  - eexists _, _. split; [reflexivity|].
    unfold freshly_allocated, go_cap. simpl.
    repeat split; try done; try lia.
    + unfold go_len at 1. simpl. lia.
    + unfold contents. simpl. rewrite array_at_app_r.
      apply take_ge. rewrite length_replicate. lia.
Qed.

(** ** Flushes in adaptive mode *)

Lemma Export_true_adaptive (e : Evexi) (rt : Runtime) :
  slice_ok rt (buffer e) ->
  bufferMaxSize e <= 0 ->
  0 <= bufCount e < int_max ->
  0 <= totalBufSize e ->
  2 * (totalBufSize e + go_len (buffer e)) <= int_max ->
  exists b rt',
    Export e true rt =
      Ok (mkEvexi b (export e) (bufferMaxSize e)
                  (totalBufSize e + go_len (buffer e)) (bufCount e + 1), rt') /\
    (go_len (buffer e)
       <= 2 * ((totalBufSize e + go_len (buffer e)) / (bufCount e + 1)) ->
     b = truncate (buffer e) /\ slice_ok rt' b) /\
    (go_len (buffer e)
       > 2 * ((totalBufSize e + go_len (buffer e)) / (bufCount e + 1)) ->
     freshly_allocated rt b).
Proof.
  intros Hok Hmax Hc Ht Hsum.
  assert (Hp : (ptr (buffer e) < length (heap rt))%nat) by apply Hok.
  unfold Export, bind. rewrite bytes_ok by done.
  rewrite reset_adaptive_ok by done. unfold adaptive_policy.
  set (avg := (totalBufSize e + go_len (buffer e)) / (bufCount e + 1)).
  destruct (Z.leb_spec (go_len (buffer e)) (2 * avg)) as [Hle|Hgt].
  - eexists _, _. split; [reflexivity|]. split; [|lia].
    intros _. split; [done|]. apply truncate_ok.
    apply (slice_ok_heap (mkRuntime (heap rt ++ [contents rt (buffer e)])
                                    (spawned rt) (tasks rt))); [done|].
    by apply slice_ok_grow.
  - eexists _, _. split; [reflexivity|]. split; [lia|].
    intros _. unfold freshly_allocated. simpl. rewrite length_app. lia.
Qed.

(** One round of "append, then flush" on an empty adaptive buffer whose
    length stays within twice the new average. *)
Lemma round_reuses (b : slice) (fn : ExportFn) (max t c n t' c' : Z)
    (d : list byte) (rt : Runtime) :
  slice_ok rt b -> len b = 0%nat ->
  max <= 0 ->
  Z.of_nat (length d) = n -> t' = t + n -> c' = c + 1 ->
  0 <= c < int_max ->
  0 <= t ->
  2 * t' <= int_max ->
  n <= 2 * (t' / c') ->
  exists b' rt',
    run growslack (mkEvexi b fn max t c) [OpWrite d; OpExport true] rt =
      Ok (mkEvexi b' fn max t' c', rt') /\
    slice_ok rt' b' /\ len b' = 0%nat.
Proof.
  intros Hok Hemp Hmax Hn -> -> Hc Ht Hsum Hle.
  set (e := mkEvexi b fn max t c).
  destruct (Write_noflush e d rt Hok ltac:(simpl; lia))
    as (b1 & rt1 & HW & Hok1 & Hc1 & _).
  assert (Hl1 : go_len b1 = n).
  { unfold go_len. rewrite <- (contents_length rt1 b1 Hok1), Hc1.
    simpl. by rewrite (contents_empty rt _ Hemp). }
  destruct (Export_true_adaptive (set_buffer e b1) rt1 Hok1)
    as (b' & rt' & HE & Hre & _); simpl; rewrite ?Hl1; try done.
  simpl in HE, Hre. rewrite Hl1 in HE, Hre.
  destruct (Hre Hle) as (-> & Hokb).
  eexists _, rt'. simpl. unfold bind at 1 2. rewrite HW. simpl.
  unfold bind, ret. rewrite HE. done.
Qed.

(** Side conditions over literals, possibly under a division. *)
Ltac closed_arith :=
  lazymatch goal with
  | |- ex _ => fail
  | |- _ => first [lia | unfold int_max; lia | by vm_compute]
  end.

(** C2 (as the code has it).  In adaptive mode three flushes of 10 bytes
    each leave a total of 30 over a count of 3, an average of 10.  The
    fourth flush takes its average with the fourth buffer included,
    [(30 + L) / 4], and compares [L] with twice that: a buffer of 25 bytes,
    like any of at most 28, is cut to length zero in place, and one of more
    than 30 bytes is replaced by a new array. *)
Theorem fourth_flush_average_includes_buffer (fn : ExportFn) (d1 d2 d3 d4 : list byte)
    (rt0 : Runtime) :
  length d1 = 10%nat -> length d2 = 10%nat -> length d3 = 10%nat ->
  2 * (30 + Z.of_nat (length d4)) <= int_max ->
  exists e0 rt1 e6 rt6 e7 rt7 e8 rt8,
    New (Some fn) 0 rt0 = Ok ((Some e0, None), rt1) /\
    run growslack e0 [OpWrite d1; OpExport true; OpWrite d2; OpExport true;
                      OpWrite d3; OpExport true] rt1 = Ok (e6, rt6) /\
    totalBufSize e6 = 30 /\ bufCount e6 = 3 /\
    totalBufSize e6 / bufCount e6 = 10 /\
    Write growslack e6 d4 rt6 = Ok ((e7, (Z.of_nat (length d4), None)), rt7) /\
    go_len (buffer e7) = Z.of_nat (length d4) /\
    Export e7 true rt7 = Ok (e8, rt8) /\
    totalBufSize e8 = 30 + Z.of_nat (length d4) /\ bufCount e8 = 4 /\
    (Z.of_nat (length d4) <= 2 * ((30 + Z.of_nat (length d4)) / 4) ->
     reused_in_place (buffer e7) (buffer e8)) /\
    (Z.of_nat (length d4) > 2 * ((30 + Z.of_nat (length d4)) / 4) ->
     freshly_allocated rt7 (buffer e8)) /\
    (Z.of_nat (length d4) <= 28 -> reused_in_place (buffer e7) (buffer e8)) /\
    (Z.of_nat (length d4) > 30 -> freshly_allocated rt7 (buffer e8)).
Proof.
  intros H1 H2 H3 H4.
  destruct (New_valid fn 0 rt0) as (b0 & rt1 & HN & Hb0 & Hok0 & _).
  destruct (round_reuses b0 fn 0 0 0 10 10 1 d1 rt1 Hok0 Hb0)
    as (b2 & rt2 & Hr1 & Hok2 & Hb2);
    try closed_arith.
  destruct (round_reuses b2 fn 0 10 1 10 20 2 d2 rt2 Hok2 Hb2)
    as (b4 & rt4 & Hr2 & Hok4 & Hb4);
    try closed_arith.
  destruct (round_reuses b4 fn 0 20 2 10 30 3 d3 rt4 Hok4 Hb4)
    as (b6 & rt6 & Hr3 & Hok6 & Hb6);
    try closed_arith.
  set (e6 := mkEvexi b6 fn 0 30 3) in *.
  destruct (Write_noflush e6 d4 rt6 Hok6 ltac:(simpl; lia))
    as (b7 & rt7 & HW & Hok7 & Hc7 & _).
  assert (Hl7 : go_len b7 = Z.of_nat (length d4)).
  { unfold go_len. rewrite <- (contents_length rt7 b7 Hok7), Hc7.
    simpl. by rewrite (contents_empty rt6 _ Hb6). }
  destruct (Export_true_adaptive (set_buffer e6 b7) rt7 Hok7)
    as (b8 & rt8 & HE & Hre & Hfresh).
  { simpl. lia. }
  { simpl. unfold int_max. lia. }
  { simpl. lia. }
  { simpl. rewrite Hl7. lia. }
  simpl in HE, Hre, Hfresh. rewrite Hl7 in HE, Hre, Hfresh.
  eexists _, rt1, e6, rt6, (set_buffer e6 b7), rt7, _, rt8.
  split; [exact HN|].
  split.
  { change [OpWrite d1; OpExport true; OpWrite d2; OpExport true;
            OpWrite d3; OpExport true]
      with ([OpWrite d1; OpExport true] ++ [OpWrite d2; OpExport true]
            ++ [OpWrite d3; OpExport true]).
    rewrite run_app. unfold bind at 1. rewrite Hr1.
    rewrite run_app. unfold bind at 1. rewrite Hr2. exact Hr3. }
  split; [done|]. split; [done|]. split; [by vm_compute|].
  split; [exact HW|]. split; [exact Hl7|]. split; [exact HE|].
  split; [done|]. split; [done|].
  change (3 + 1) with 4 in Hre, Hfresh.
  split; [intros Hle; by apply Hre|].
  split; [intros Hgt; by apply Hfresh|].
  split.
  - intros Hle. apply Hre. Z.to_euclidean_division_equations. lia.
  - intros Hgt. apply Hfresh. Z.to_euclidean_division_equations. lia.
Qed.

(** ** The flush counter along a run *)

Lemma bytes_total (e : Evexi) (rt : Runtime) :
  exists s rt', bytes e rt = Ok (s, rt').
Proof.
  unfold bytes, bind, go_len. rewrite make_ok by lia.
  unfold copy, ret. eauto.
Qed.

Lemma append_total (s : slice) (data : list byte) (rt : Runtime) :
  exists s' rt', append growslack s data rt = Ok (s', rt').
Proof. unfold append. destruct (_ <=? _)%nat; eauto. Qed.

Lemma reset_count (e : Evexi) (rt : Runtime) :
  0 <= bufCount e < int_max ->
  count_within (bufCount e) (bufCount e + 1) (reset e rt).
Proof.
  intros Hc. unfold reset.
  destruct (bufferMaxSize e >? 0) eqn:Hmax.
  - apply Z.gtb_lt in Hmax.
    destruct (go_len (buffer e) >=? bufferMaxSize e).
    + unfold bind. rewrite make_ok by lia. simpl. lia.
    + simpl. lia.
  - simpl. rewrite (int_add_small (bufCount e) 1)
      by (unfold is_int, int_min, int_max in *; lia).
    unfold bind, lift, int_quot.
    destruct (Z.eqb_spec (bufCount e + 1) 0); [lia|].
    destruct (_ <=? _); [simpl; lia|].
    unfold make. destruct (_ <? 0); [done|].
    destruct (_ <? _); [done|]. simpl. lia.
Qed.

Lemma flush_count (e : Evexi) (rt : Runtime) :
  0 <= bufCount e < int_max ->
  count_within (bufCount e) (bufCount e + 1)
    ((do data <- bytes e; do e <- reset e; do _ <- go (export e) data; ret e) rt).
Proof.
  intros Hc. unfold bind at 1.
  destruct (bytes_total e rt) as (s & rt1 & ->).
  unfold bind at 1. pose proof (reset_count e rt1 Hc) as Hr.
  destruct (reset e rt1) as [[e1 rt2]|p]; [|done]. done.
Qed.

Lemma step_count (e : Evexi) (o : op) (rt : Runtime) :
  0 <= bufCount e < int_max ->
  count_within (bufCount e) (bufCount e + 1) (step growslack e o rt).
Proof.
  intros Hc. destruct o as [data|r| | |d|h|h]; simpl.
  - unfold Write.
    match goal with
    | |- context [bind ?m _] =>
        match m with
        | (if _ then _ else _) => set (pre := m)
        end
    end.
    assert (Hpre : count_within (bufCount e) (bufCount e + 1) (pre rt)).
    { subst pre. destruct (bufferMaxSize e >? 0); [|simpl; lia].
      destruct (_ >? _); [|simpl; lia]. apply flush_count; done. }
    unfold bind at 1 2. destruct (pre rt) as [[e1 rt1]|p]; [|done].
    unfold bind at 1.
    destruct (append_total (buffer e1) data rt1) as (b & rt2 & ->). done.
  - unfold Export. destruct r.
    + apply flush_count; done.
    + unfold bind at 1. destruct (bytes_total e rt) as (s & rt1 & ->).
      simpl. lia.
  - unfold Bytes, bind. destruct (bytes_total e rt) as (s & rt1 & ->). simpl. lia.
  - apply reset_count; done.
  - unfold bind, IntervalExport. destruct (d <=? 0); simpl; lia.
  - simpl. lia.
  - unfold tick. destruct (tasks rt !! h) as [t|]; [|simpl; lia].
    destruct (cancelled t); [simpl; lia|]. apply flush_count; done.
Qed.

Lemma run_count (ops : list op) (e : Evexi) (rt : Runtime) :
  0 <= bufCount e ->
  bufCount e + Z.of_nat (length ops) <= int_max ->
  count_within (bufCount e) (bufCount e + Z.of_nat (length ops))
    (run growslack e ops rt).
Proof.
  revert e rt. induction ops as [|o ops IH]; intros e rt H0 Hmax.
  - simpl. lia.
  - simpl length in *. simpl run. unfold bind.
    pose proof (step_count e o rt ltac:(lia)) as Hs.
    destruct (step growslack e o rt) as [[e1 rt1]|p]; [|done].
    simpl in Hs.
    pose proof (IH e1 rt1 ltac:(lia) ltac:(lia)) as Hr.
    destruct (run growslack e1 ops rt1) as [[e2 rt2]|p]; [|done].
    simpl in *. lia.
Qed.

(** C9.  Along every sequence of fewer than [2^63 - 1] calls on a sink fresh
    from [New], no call panics with a division by zero; the flush count of
    the sink reached is between 0 and the number of calls made, so the
    divisor of the next reset, [bufCount + 1], is at least 1 and that reset
    does not divide by zero either. *)
Theorem reset_divisor_at_least_one (fn : ExportFn) (max : Z) (ops : list op)
    (rt0 : Runtime) :
  Z.of_nat (length ops) < int_max ->
  match program growslack (Some fn) max ops rt0 with
  | Ok (Some e, rt) =>
      0 <= bufCount e <= Z.of_nat (length ops) /\
      1 <= int_add (bufCount e) 1 /\
      forall rt', reset e rt' <> Panic DivideByZero
  | Ok (None, _) => False
  | Panic p => p <> DivideByZero
  end.
Proof.
  intros Hlen. unfold program. unfold bind at 1.
  destruct (New_valid fn max rt0) as (b0 & rt1 & -> & _).
  cbn [fst]. unfold bind.
  pose proof (run_count ops (mkEvexi b0 fn max 0 0) rt1 ltac:(done)
                ltac:(simpl; lia)) as Hr.
  destruct (run growslack _ ops rt1) as [[e rt]|p]; [|exact Hr].
  simpl in Hr |- *.
  split; [lia|].
  split; [rewrite int_add_small by (unfold is_int, int_min, int_max in *; lia); lia|].
  intros rt' Hp. pose proof (reset_count e rt' ltac:(lia)) as Hc.
  rewrite Hp in Hc. done.
Qed.

End Properties.

(** ** The disk exporter *)

(** C10.  The callback [ExportToDisk] returns writes, for non-empty data, to
    the file named by the directory, the path separator, the prefix, an
    underscore, the current time in the layout [2006_01_02-15_04_05] and
    [.txt]; for empty data it does nothing at all. *)
Theorem disk_callback_file_name (sep : ascii) (Format : Time -> string -> string)
    (os0 : OS) (path fileNamePrefix : string) (cb : list byte -> OS -> OS) :
  ExportToDisk sep Format os0 path fileNamePrefix = (Some cb, None) ->
  exists dir : string,
    (if String.eqb path EmptyString then cwd os0 = inl dir else dir = path) /\
    forall (logData : list byte) (os : OS),
      let logPath :=
        (dir ++ String sep EmptyString ++ fileNamePrefix ++ "_"
             ++ Format (now os) "2006_01_02-15_04_05" ++ ".txt")%string in
      (logData = [] -> cb logData os = os) /\
      (logData <> [] ->
       match write_error os logPath with
       | None =>
           cb logData os =
             mkOS (now os) (cwd os) (write_error os)
                  (written os ++ [(logPath, logData, 420)]) (logged os)
       | Some err =>
           cb logData os =
             mkOS (now os) (cwd os) (write_error os) (written os)
                  (logged os ++ [["Unable to export to disk:"; err]%string])
       end).
Proof.
  unfold ExportToDisk. intros H.
  assert (Hcb : exists dir,
            (if String.eqb path EmptyString then cwd os0 = inl dir else dir = path) /\
            cb = disk_callback sep Format dir fileNamePrefix).
  { destruct (String.eqb path EmptyString).
    - destruct (cwd os0) as [dir|err]; [|discriminate].
      exists dir. split; [done|]. congruence.
    - exists path. split; [done|]. congruence. }
  destruct Hcb as (dir & Hdir & ->). exists dir. split; [exact Hdir|].
  intros logData os. unfold disk_callback, fileDateFormat, WriteFile, Println.
  split.
  - intros ->. done.
  - intros Hne. destruct logData as [|x l]; [done|]. simpl.
    destruct (write_error os _); done.
Qed.

(** ** Evaluations *)

(** C1.  An adaptive sink that resets once while empty, takes three bytes
    and resets again is left with a buffer of length 1 holding a zero byte:
    the second reset computes the average [3 / 2 = 1], finds [3 > 2] and
    runs [make([]byte, avgBufSize)], whose result has length [avgBufSize],
    not zero. *)
Theorem adaptive_reset_leaves_zero_bytes (growslack : nat -> nat -> nat) :
  exists e rt out rt',
    program growslack (Some sample_fn) 0 [OpReset; OpWrite abc; OpReset]
            empty_runtime = Ok (Some e, rt) /\
    totalBufSize e = 3 /\ bufCount e = 2 /\
    Bytes e rt = Ok (out, rt') /\
    contents rt' out = [x00] /\
    go_len out = 1.
Proof.
  eexists _, _, _, _.
  split; [vm_compute; reflexivity|].
  split; [reflexivity|]. split; [reflexivity|].
  split; [vm_compute; reflexivity|].
  split; [vm_compute; reflexivity|reflexivity].
Qed.

(** The scenario of C2 on the code: the fourth buffer, of 25 bytes, is kept
    and cut to length zero; no new array is allocated for it. *)
Lemma fourth_flush_of_25_is_not_fresh :
  exists e7 rt7 e8 rt8,
    program doubling (Some sample_fn) 0 three_flushes_then_25 empty_runtime
      = Ok (Some e7, rt7) /\
    totalBufSize e7 / bufCount e7 = 10 /\
    go_len (buffer e7) = 25 /\
    go_len (buffer e7) > 2 * (totalBufSize e7 / bufCount e7) /\
    Export e7 true rt7 = Ok (e8, rt8) /\
    reused_in_place (buffer e7) (buffer e8) /\
    ~ freshly_allocated rt7 (buffer e8).
Proof.
  eexists _, _, _, _.
  split; [vm_compute; reflexivity|].
  split; [reflexivity|]. split; [reflexivity|]. split; [reflexivity|].
  split; [vm_compute; reflexivity|].
  split; [reflexivity|].
  unfold freshly_allocated. simpl. lia.
Qed.

(** ** Instances *)

Lemma New_fails_iff_export_nil_witness :
  New None 10 empty_runtime = Ok ((None, Some ErrExportFuncNotSet), empty_runtime) /\
  (exists e rt',
     New (Some sample_fn) 10 empty_runtime = Ok ((Some e, None), rt') /\
     go_len (buffer e) = 0 /\ go_cap (buffer e) = 10) /\
  0 <= 0 /\ Some sample_fn <> None /\
  exists e rt', New (Some sample_fn) 0 empty_runtime = Ok ((Some e, None), rt').
Proof.
  split; [|split].
  - apply (New_fails_iff_export_nil None 10 empty_runtime). reflexivity.
  - destruct (New_fails_iff_export_nil (Some sample_fn) 10 empty_runtime)
      as (_ & Hret & _).
    destruct (Hret _ _ eq_refl) as (e & Hr & _ & _ & _ & _ & Hl & Hc & _).
    exists e. eexists. split; [|split; [exact Hl|exact Hc]].
    unfold New, bind, ret. simpl. unfold ret in Hr. simpl in Hr.
    injection Hr as <-. reflexivity.
  - assert (H0 : 0 <= 0) by lia.
    assert (Hne : Some sample_fn <> None) by discriminate.
    split; [exact H0|]. split; [exact Hne|].
    destruct (New_fails_iff_export_nil (Some sample_fn) 0 empty_runtime)
      as (_ & _ & Hex).
    exact (Hex H0 Hne).
Defined.

Lemma fourth_flush_average_includes_buffer_witness :
  length ten_bytes = 10%nat /\
  2 * (30 + Z.of_nat (length spike_25)) <= int_max /\
  exists e7 rt7 e8 rt8,
    go_len (buffer e7) = 25 /\
    Export e7 true rt7 = Ok (e8, rt8) /\
    totalBufSize e8 = 55 /\ bufCount e8 = 4 /\
    reused_in_place (buffer e7) (buffer e8).
Proof.
  split; [reflexivity|]. split; [vm_compute; discriminate|].
  destruct (fourth_flush_average_includes_buffer doubling sample_fn
              ten_bytes ten_bytes ten_bytes spike_25 empty_runtime
              eq_refl eq_refl eq_refl)
    as (e0 & rt1 & e6 & rt6 & e7 & rt7 & e8 & rt8 & _ & _ & _ & _ & _ & _
        & Hl & HE & Ht & Hc & _ & _ & Hre & _).
  { vm_compute. discriminate. }
  exists e7, rt7, e8, rt8.
  split; [exact Hl|]. split; [exact HE|]. split; [exact Ht|]. split; [exact Hc|].
  apply Hre. vm_compute. discriminate.
Defined.

Lemma Write_over_capacity_flushes_first_witness :
  slice_ok six_of_ten_rt (buffer six_of_ten) /\
  bufferMaxSize six_of_ten > 0 /\
  go_len (buffer six_of_ten) + Z.of_nat (length ghijkl) <= int_max /\
  go_len (buffer six_of_ten) + Z.of_nat (length ghijkl) > bufferMaxSize six_of_ten /\
  (exists b rt' snapshot,
     Write doubling six_of_ten ghijkl six_of_ten_rt =
       Ok ((set_buffer six_of_ten b, (6, None)), rt') /\
     spawned rt' = [(sample_fn, snapshot)] /\
     contents rt' snapshot = abcdef /\
     contents rt' b = ghijkl) /\
  (exists e2 rt2 out rt3 snapshot,
     Bytes e2 rt2 = Ok (out, rt3) /\
     spawned rt3 = [(sample_fn, snapshot)] /\
     contents rt3 snapshot = abcdef /\
     contents rt3 out = ghijkl).
Proof.
  assert (Hok : slice_ok six_of_ten_rt (buffer six_of_ten)).
  { unfold slice_ok. simpl. lia. }
  assert (Hmax : bufferMaxSize six_of_ten > 0) by reflexivity.
  assert (Hint : go_len (buffer six_of_ten) + Z.of_nat (length ghijkl) <= int_max).
  { vm_compute. discriminate. }
  assert (Hover : go_len (buffer six_of_ten) + Z.of_nat (length ghijkl)
                  > bufferMaxSize six_of_ten) by reflexivity.
  split; [exact Hok|]. split; [exact Hmax|]. split; [exact Hint|].
  split; [exact Hover|].
  destruct (Write_over_capacity_flushes_first doubling) as (Hgen & Hscen).
  split.
  - destruct (Hgen six_of_ten ghijkl six_of_ten_rt Hok Hmax Hint Hover)
      as (b & rt' & snapshot & HW & Hsp & Hsnap & _ & Hc).
    exists b, rt', snapshot. split; [exact HW|]. split; [exact Hsp|].
    split; [exact Hsnap|exact Hc].
  - destruct (Hscen sample_fn abcdef ghijkl eq_refl eq_refl)
      as (e0 & rt0 & e1 & rt1 & e2 & rt2 & out & rt3 & snapshot
          & _ & _ & _ & HB & Hsp & Hsnap & Hout).
    exists e2, rt2, out, rt3, snapshot.
    split; [exact HB|]. split; [exact Hsp|]. split; [exact Hsnap|exact Hout].
Defined.

Lemma reset_adaptive_steps_witness :
  (bufferMaxSize three_after_one <= 0 /\
   0 <= bufCount three_after_one < int_max /\
   0 <= totalBufSize three_after_one /\
   2 * (totalBufSize three_after_one + go_len (buffer three_after_one)) <= int_max /\
   exists e' rt',
     reset three_after_one three_after_one_rt = Ok (e', rt') /\
     bufCount e' = 2 /\ totalBufSize e' = 3 /\
     freshly_allocated three_after_one_rt (buffer e') /\
     go_cap (buffer e') = 1) /\
  (bufferMaxSize three_after_three <= 0 /\
   0 <= bufCount three_after_three < int_max /\
   0 <= totalBufSize three_after_three /\
   2 * (totalBufSize three_after_three + go_len (buffer three_after_three)) <= int_max /\
   exists e' rt',
     reset three_after_three three_after_one_rt = Ok (e', rt') /\
     bufCount e' = 2 /\ totalBufSize e' = 6 /\
     ptr (buffer e') = ptr (buffer three_after_three) /\
     go_len (buffer e') = 0 /\
     contents rt' (buffer e') = [] /\
     rt' = three_after_one_rt).
Proof.
  split.
  - assert (H1 : bufferMaxSize three_after_one <= 0) by (simpl; lia).
    assert (H2 : 0 <= bufCount three_after_one < int_max)
      by (unfold int_max; simpl; lia).
    assert (H3 : 0 <= totalBufSize three_after_one) by (simpl; lia).
    assert (H4 : 2 * (totalBufSize three_after_one + go_len (buffer three_after_one))
                 <= int_max) by (vm_compute; discriminate).
    split; [exact H1|]. split; [exact H2|]. split; [exact H3|]. split; [exact H4|].
    destruct (reset_adaptive_steps three_after_one three_after_one_rt H1 H2 H3 H4)
      as (e' & rt' & HR & _ & _ & _ & Hc & Ht & _ & Hfresh).
    exists e', rt'. split; [exact HR|]. split; [exact Hc|]. split; [exact Ht|].
    destruct Hfresh as (Hf & Hcap & _); [reflexivity|].
    split; [exact Hf|exact Hcap].
  - assert (H1 : bufferMaxSize three_after_three <= 0) by (simpl; lia).
    assert (H2 : 0 <= bufCount three_after_three < int_max)
      by (unfold int_max; simpl; lia).
    assert (H3 : 0 <= totalBufSize three_after_three) by (simpl; lia).
    assert (H4 : 2 * (totalBufSize three_after_three
                      + go_len (buffer three_after_three)) <= int_max)
      by (vm_compute; discriminate).
    split; [exact H1|]. split; [exact H2|]. split; [exact H3|]. split; [exact H4|].
    destruct (reset_adaptive_steps three_after_three three_after_one_rt H1 H2 H3 H4)
      as (e' & rt' & HR & _ & _ & _ & Hc & Ht & Hreuse & _).
    exists e', rt'. split; [exact HR|]. split; [exact Hc|]. split; [exact Ht|].
    destruct Hreuse as (_ & Hp & _ & Hl & Hcont & Hrt);
      [vm_compute; discriminate|].
    split; [exact Hp|]. split; [exact Hl|]. split; [exact Hcont|exact Hrt].
Defined.

Lemma Bytes_is_private_concatenation_witness :
  exists e0 rt1,
    New (Some sample_fn) 10 empty_runtime = Ok ((Some e0, None), rt1) /\
    (10 > 0 -> Z.of_nat (length (concat [abc; abcdef])) <= 10 <= int_max) /\
    exists e rt out rt',
      run doubling e0 (map OpWrite [abc; abcdef]) rt1 = Ok (e, rt) /\
      Bytes e rt = Ok (out, rt') /\
      contents rt' out = abc ++ abcdef /\
      ptr out <> ptr (buffer e).
Proof.
  eexists _, _. split; [reflexivity|].
  assert (H : 10 > 0 -> Z.of_nat (length (concat [abc; abcdef])) <= 10 <= int_max).
  { intros _. unfold int_max. simpl. lia. }
  split; [exact H|].
  destruct (Bytes_is_private_concatenation doubling sample_fn 10
              [abc; abcdef] empty_runtime _ _ eq_refl H)
    as (e & rt & out & rt' & Hr & HB & Hc & _ & Hne & _).
  exists e, rt, out, rt'. split; [exact Hr|]. split; [exact HB|].
  split; [exact Hc|exact Hne].
Defined.

Lemma Write_oversized_kept_whole_witness :
  slice_ok empty_of_three_rt (buffer empty_of_three) /\
  bufferMaxSize empty_of_three > 0 /\
  Z.of_nat (length abcdef) > bufferMaxSize empty_of_three /\
  go_len (buffer empty_of_three) + Z.of_nat (length abcdef) <= int_max /\
  exists e' rt',
    Write doubling empty_of_three abcdef empty_of_three_rt =
      Ok ((e', (6, None)), rt') /\
    contents rt' (buffer e') = abcdef /\
    go_len (buffer e') = 6 /\
    go_len (buffer e') > bufferMaxSize e'.
Proof.
  assert (H1 : slice_ok empty_of_three_rt (buffer empty_of_three)).
  { unfold slice_ok. simpl. lia. }
  assert (H2 : bufferMaxSize empty_of_three > 0) by reflexivity.
  assert (H3 : Z.of_nat (length abcdef) > bufferMaxSize empty_of_three)
    by reflexivity.
  assert (H4 : go_len (buffer empty_of_three) + Z.of_nat (length abcdef) <= int_max).
  { vm_compute. discriminate. }
  split; [exact H1|]. split; [exact H2|]. split; [exact H3|]. split; [exact H4|].
  destruct (Write_oversized_kept_whole doubling empty_of_three abcdef
              empty_of_three_rt H1 H2 H3 H4)
    as (e' & rt' & snapshot & HW & _ & _ & Hc & Hl & Hgt & _).
  exists e', rt'. split; [exact HW|]. split; [exact Hc|].
  split; [exact Hl|exact Hgt].
Defined.

Lemma IntervalExport_rejects_nonpositive_witness :
  0 <= 0 /\ 5 > 0 /\
  IntervalExport six_of_ten 0 six_of_ten_rt =
    Ok ((None, Some ErrNegativeOrZeroInterval), six_of_ten_rt) /\
  exists h rt',
    IntervalExport six_of_ten 5 six_of_ten_rt = Ok ((Some h, None), rt') /\
    tasks rt' = [mkTask 5 false].
Proof.
  assert (H0 : 0 <= 0) by lia. assert (H5 : 5 > 0) by lia.
  split; [exact H0|]. split; [exact H5|].
  split.
  - apply (IntervalExport_rejects_nonpositive doubling six_of_ten 0 six_of_ten_rt).
    exact H0.
  - destruct (IntervalExport_rejects_nonpositive doubling six_of_ten 5 six_of_ten_rt)
      as (_ & Hpos).
    destruct (Hpos H5) as (h & rt' & HI & Ht & _).
    exists h, rt'. split; [exact HI|exact Ht].
Defined.

Lemma reset_divisor_at_least_one_witness :
  Z.of_nat (length [OpReset; OpWrite abc; OpReset]) < int_max /\
  match program doubling (Some sample_fn) 0 [OpReset; OpWrite abc; OpReset]
                empty_runtime with
  | Ok (Some e, rt) =>
      0 <= bufCount e <= 3 /\
      1 <= int_add (bufCount e) 1 /\
      forall rt', reset e rt' <> Panic DivideByZero
  | Ok (None, _) => False
  | Panic p => p <> DivideByZero
  end.
Proof.
  assert (H : Z.of_nat (length [OpReset; OpWrite abc; OpReset]) < int_max)
    by reflexivity.
  split; [exact H|].
  exact (reset_divisor_at_least_one doubling sample_fn 0
           [OpReset; OpWrite abc; OpReset] empty_runtime H).
Defined.

Lemma disk_callback_file_name_witness :
  ExportToDisk "/" go_format sample_os EmptyString "app" =
    (Some (disk_callback "/" go_format "/var/log" "app"), None) /\
  abc <> [] /\
  disk_callback "/" go_format "/var/log" "app" abc sample_os =
    mkOS sample_time (cwd sample_os) (write_error sample_os)
         [("/var/log/app_2024_03_05-07_08_09.txt"%string, abc, 420)] [] /\
  disk_callback "/" go_format "/var/log" "app" [] sample_os = sample_os.
Proof.
  assert (HE : ExportToDisk "/" go_format sample_os EmptyString "app" =
               (Some (disk_callback "/" go_format "/var/log" "app"), None))
    by reflexivity.
  assert (Hne : abc <> []) by discriminate.
  split; [exact HE|]. split; [exact Hne|].
  destruct (disk_callback_file_name "/" go_format sample_os EmptyString "app" _ HE)
    as (dir & Hdir & Hcb).
  simpl in Hdir. injection Hdir as <-.
  split.
  - exact (proj2 (Hcb abc sample_os) Hne).
  - exact (proj1 (Hcb [] sample_os) eq_refl).
Defined.

(** * Further properties of the sink *)

Section Dispatches.

Variable growslack : nat -> nat -> nat.

(** [reset] changes neither the configuration nor the dispatch list. *)
Lemma reset_inv (e e' : Evexi) (rt rt' : Runtime) :
  reset e rt = Ok (e', rt') ->
  export e' = export e /\ bufferMaxSize e' = bufferMaxSize e /\
  spawned rt' = spawned rt /\ tasks rt' = tasks rt.
Proof.
  unfold reset. destruct (bufferMaxSize e >? 0).
  - destruct (go_len (buffer e) >=? bufferMaxSize e).
    + unfold bind. destruct (make 0 (bufferMaxSize e) rt) as [[b rt1]|p] eqn:Hmk;
        [|done].
      apply make_inv in Hmk as (_ & _ & ->). by intros [= <- <-].
    + by intros [= <- <-].
  - simpl. unfold bind, lift. destruct (int_quot _ _) as [avg|p]; [|done].
    destruct (_ <=? _); [by intros [= <- <-]|].
    destruct (make avg avg rt) as [[b rt1]|p] eqn:Hmk; [|done].
    apply make_inv in Hmk as (_ & _ & ->). by intros [= <- <-].
Qed.

(** What one snapshot-reset-dispatch does, in either mode. *)
Lemma flush_spec (e e' : Evexi) (rt rt' : Runtime) :
  slice_ok rt (buffer e) ->
  snapshot_reset_dispatch e rt = Ok (e', rt') ->
  let snapshot := mkSlice (length (heap rt)) (len (buffer e)) (len (buffer e)) in
  sink_frame rt e rt' e' /\
  spawned rt' = spawned rt ++ [(export e, snapshot)] /\
  tasks rt' = tasks rt /\
  contents rt' snapshot = contents rt (buffer e) /\
  (ptr snapshot < length (heap rt'))%nat /\
  ptr snapshot <> ptr (buffer e') /\
  export e' = export e /\ bufferMaxSize e' = bufferMaxSize e.
Proof.
  intros Hok Hrun. simpl.
  split; [by apply (flush_frame e e' rt rt')|].
  revert Hrun. unfold snapshot_reset_dispatch. unfold bind at 1.
  rewrite bytes_ok by apply Hok.
  set (rt1 := mkRuntime _ _ _).
  assert (Hok1 : slice_ok rt1 (buffer e)) by (by apply slice_ok_grow).
  unfold bind at 1. destruct (reset e rt1) as [[e1 rt2]|p] eqn:Hr; [|done].
  pose proof (reset_frame e e1 rt1 rt2 Hok1 Hr) as (Hok2 & Hm & Hf & Hptr).
  pose proof (reset_inv e e1 rt1 rt2 Hr) as (Hex & Hmx & Hsp & Hts).
  unfold bind, go, ret. intros [= <- <-]. simpl.
  assert (Hp : (ptr (buffer e) < length (heap rt))%nat) by apply Hok.
  assert (Hl1 : length (heap rt1) = S (length (heap rt))).
  { subst rt1. simpl. rewrite length_app. simpl. lia. }
  split; [by rewrite Hsp, Hex|]. split; [by rewrite Hts|].
  split.
  { unfold contents at 1. simpl. rewrite Hf by lia.
    subst rt1. simpl. rewrite array_at_app_r. apply take_ge.
    by rewrite contents_length. }
  split; [lia|].
  split; [destruct Hptr as [->|Hfresh]; lia|].
  done.
Qed.

Lemma sink_ok_frame (rt rt' : Runtime) (e e' : Evexi)
    (news : list (ExportFn * slice)) :
  sink_ok rt e ->
  sink_frame rt e rt' e' ->
  spawned rt' = spawned rt ++ news ->
  Forall (fun x => ((ptr (snd x) < length (heap rt'))%nat /\
                    ptr (snd x) <> ptr (buffer e')) /\
                   fst x = export e) news ->
  export e' = export e -> bufferMaxSize e' = bufferMaxSize e ->
  extends rt e rt' e'.
Proof.
  intros (Hok & Hsn) (Hok' & Hm & Hf & Hptr) Hsp Hnews Hex Hmx.
  apply Forall_and in Hnews as (Hnews & Hfn).
  assert (Hp : (ptr (buffer e) < length (heap rt))%nat) by apply Hok.
  unfold extends, sink_ok, snapshots_ok. rewrite Hsp.
  split; [split; [done|]|split; [by exists news|split; [|done]]].
  - apply Forall_app. split; [|done].
    eapply Forall_impl; [exact Hsn|]. intros x (Hx & Hne). simpl.
    split; [lia|]. destruct Hptr as [->|Hfresh]; [done|lia].
  - eapply Forall_impl; [exact Hsn|]. intros x (Hx & Hne). simpl.
    unfold contents. by rewrite Hf.
Qed.

(** A step that dispatches nothing and keeps the configuration. *)
Lemma sink_ok_quiet (rt rt' : Runtime) (e e' : Evexi) :
  sink_ok rt e ->
  sink_frame rt e rt' e' ->
  spawned rt' = spawned rt ->
  export e' = export e -> bufferMaxSize e' = bufferMaxSize e ->
  extends rt e rt' e'.
Proof.
  intros Hok Hf Hsp Hex Hmx.
  apply (sink_ok_frame rt rt' e e' []); try done. by rewrite app_nil_r.
Qed.

Lemma extends_refl (rt : Runtime) (e : Evexi) :
  sink_ok rt e -> extends rt e rt e.
Proof.
  intros Hok. split; [done|]. split; [exists []; by rewrite app_nil_r|].
  split; [by apply Forall_true|done].
Qed.

Lemma extends_trans (rt rt1 rt2 : Runtime) (e e1 e2 : Evexi) :
  extends rt e rt1 e1 -> extends rt1 e1 rt2 e2 -> extends rt e rt2 e2.
Proof.
  intros (Hok1 & (n1 & Hsp1 & Hfn1) & Hc1 & Hex1 & Hmx1)
         (Hok2 & (n2 & Hsp2 & Hfn2) & Hc2 & Hex2 & Hmx2).
  split; [done|]. split.
  { exists (n1 ++ n2). split; [by rewrite Hsp2, Hsp1, app_assoc|].
    apply Forall_app. split; [done|]. by rewrite <- Hex1. }
  split; [|split; congruence].
  rewrite Hsp1 in Hc2. apply Forall_app in Hc2 as (Hc2 & _).
  rewrite Forall_forall in *. intros x Hx. by rewrite Hc2, Hc1.
Qed.

Lemma flush_extends (e e' : Evexi) (rt rt' : Runtime) :
  sink_ok rt e ->
  snapshot_reset_dispatch e rt = Ok (e', rt') -> extends rt e rt' e'.
Proof.
  intros Hok Hrun.
  destruct (flush_spec e e' rt rt' (proj1 Hok) Hrun)
    as (Hf & Hsp & _ & _ & Hlt & Hne & Hex & Hmx).
  apply (sink_ok_frame rt rt' e e' _ Hok Hf Hsp); [|done|done].
  by repeat constructor.
Qed.

Lemma step_extends (e e' : Evexi) (o : op) (rt rt' : Runtime) :
  sink_ok rt e ->
  step growslack e o rt = Ok (e', rt') -> extends rt e rt' e'.
Proof.
  intros Hok.
  assert (Hp : (ptr (buffer e) < length (heap rt))%nat) by apply Hok.
  destruct o as [data|r| | |d|h|h]; simpl.
  - unfold Write.
    match goal with
    | |- context [bind ?m _] =>
        match m with
        | (if _ then _ else _) => set (pre := m)
        end
    end.
    assert (Hpre : forall e1 rt1, pre rt = Ok (e1, rt1) -> extends rt e rt1 e1).
    { subst pre. intros e1 rt1.
      destruct (bufferMaxSize e >? 0);
        [destruct (_ >? _)|]; try (intros [= <- <-]; by apply extends_refl).
      by apply flush_extends. }
    unfold bind at 1 2. destruct (pre rt) as [[e1 rt1]|p]; [|done].
    specialize (Hpre e1 rt1 eq_refl).
    destruct (append_ok growslack (buffer e1) data rt1)
      as (b & rt2 & Happ & _ & _ & _ & _ & _ & Hsp & _); [apply Hpre|].
    destruct (append_frame growslack e1 data rt1) as (b' & rt2' & Happ' & Hf2);
      [apply Hpre|].
    rewrite Happ in Happ'. injection Happ' as <- <-.
    unfold bind at 1. rewrite Happ. unfold bind, ret. simpl. intros [= <- <-].
    apply (extends_trans rt rt1 rt2 e e1); [done|].
    by apply sink_ok_quiet; [apply Hpre|..].
  - destruct r; [by apply flush_extends|].
    unfold Export. unfold bind at 1. rewrite bytes_ok by done.
    unfold bind, go, ret. simpl. intros [= <- <-].
    eapply sink_ok_frame; [done|by apply sink_frame_alloc, Hok|reflexivity| |done|done].
    repeat constructor; simpl; [rewrite length_app; simpl; lia|lia].
  - unfold Bytes, bind. rewrite bytes_ok by done.
    unfold ret. intros [= <- <-].
    by apply sink_ok_quiet; [|apply sink_frame_alloc, Hok|..].
  - unfold Reset. intros Hr.
    pose proof (reset_inv _ _ _ _ Hr) as (Hex & Hmx & Hsp & _).
    by apply sink_ok_quiet; [|apply reset_frame, Hr; apply Hok|..].
  - unfold bind, IntervalExport, ret.
    destruct (d <=? 0); intros [= <- <-]; try by apply extends_refl.
    by apply sink_ok_quiet; [|apply sink_frame_same_heap; [|apply Hok]|..].
  - unfold bind, cancel, ret. intros [= <- <-].
    by apply sink_ok_quiet; [|apply sink_frame_same_heap; [|apply Hok]|..].
  - unfold tick. destruct (tasks rt !! h) as [t|];
      [|intros [= <- <-]; by apply extends_refl].
    destruct (cancelled t); [intros [= <- <-]; by apply extends_refl|].
    by apply flush_extends.
Qed.

Lemma run_extends (ops : list op) (e e' : Evexi) (rt rt' : Runtime) :
  sink_ok rt e ->
  run growslack e ops rt = Ok (e', rt') -> extends rt e rt' e'.
Proof.
  revert e rt. induction ops as [|o ops IH]; intros e rt Hok; simpl.
  - unfold ret. intros [= <- <-]. by apply extends_refl.
  - unfold bind. destruct (step growslack e o rt) as [[e1 rt1]|p] eqn:Hs; [|done].
    apply step_extends in Hs; [|done]. intros Hr.
    apply IH in Hr; [|apply Hs].
    by apply (extends_trans rt rt1 rt' e e1).
Qed.

Lemma New_sink_ok (fn : ExportFn) (max : Z) (rt0 rt : Runtime) (e : Evexi) :
  spawned rt0 = [] ->
  New (Some fn) max rt0 = Ok ((Some e, None), rt) -> sink_ok rt e.
Proof.
  intros Hsp0.
  destruct (New_valid fn max rt0) as (b0 & rt1 & -> & _ & Hok0 & Hsp & _).
  intros [= <- <-]. split; [done|]. unfold snapshots_ok.
  rewrite Hsp, Hsp0. constructor.
Qed.

End Dispatches.

Section FixedCapacity.

Variable growslack : nat -> nat -> nat.

Lemma reset_fixed_total (e : Evexi) (rt : Runtime) :
  bufferMaxSize e > 0 ->
  exists b rt',
    reset e rt = Ok (set_buffer e b, rt') /\
    len b = 0%nat /\
    (cap b = cap (buffer e) \/ cap b = Z.to_nat (bufferMaxSize e)).
Proof.
  intros Hmax.
  destruct (Z_lt_ge_dec (go_len (buffer e)) (bufferMaxSize e)) as [Hlt|Hge].
  - rewrite reset_fixed_reuse by done. eexists _, _. split; [reflexivity|].
    split; [done|by left].
  - rewrite reset_fixed_full by done. eexists _, _. split; [reflexivity|].
    split; [done|by right].
Qed.

Lemma flush_fixed_total (e : Evexi) (rt : Runtime) :
  bufferMaxSize e > 0 ->
  exists b rt',
    snapshot_reset_dispatch e rt = Ok (set_buffer e b, rt') /\
    len b = 0%nat /\
    (cap b = cap (buffer e) \/ cap b = Z.to_nat (bufferMaxSize e)).
Proof.
  intros Hmax. unfold snapshot_reset_dispatch. unfold bind at 1.
  destruct (bytes_total e rt) as (s & rt1 & ->).
  destruct (reset_fixed_total e rt1 Hmax) as (b & rt2 & Hr & Hl & Hc).
  unfold bind at 1. rewrite Hr. unfold bind, go, ret. by eexists _, _.
Qed.

Lemma append_in_place (s : slice) (data : list byte) (rt : Runtime) :
  (len s + length data <= cap s)%nat ->
  exists rt',
    append growslack s data rt =
      Ok (mkSlice (ptr s) (len s + length data) (cap s), rt').
Proof.
  intros Hfit. unfold append.
  destruct (Nat.leb_spec (len s + length data) (cap s)); [|lia]. by eexists.
Qed.

(** The flush test of [Write], when the sum does not wrap. *)
Lemma Write_test (e : Evexi) (data : list byte) :
  go_len (buffer e) + Z.of_nat (length data) <= int_max ->
  (int_add (go_len (buffer e)) (Z.of_nat (length data)) >? bufferMaxSize e) =
  (bufferMaxSize e <? go_len (buffer e) + Z.of_nat (length data)).
Proof.
  intros Hint. rewrite int_add_small, Z.gtb_ltb; [done|].
  unfold is_int, int_min, int_max, go_len in *. lia.
Qed.

(** In fixed-capacity mode every call succeeds and leaves everything but
    the buffer as it was. *)
Lemma step_fixed_total (e : Evexi) (o : op) (rt : Runtime) :
  bufferMaxSize e > 0 ->
  exists b rt', step growslack e o rt = Ok (set_buffer e b, rt').
Proof.
  intros Hmax.
  assert (Hsame : forall rt' : Runtime,
            Ok (e, rt') = Ok (set_buffer e (buffer e), rt'))
    by (intros; by destruct e).
  destruct o as [data|r| | |d|h|h]; simpl.
  - unfold Write.
    match goal with
    | |- context [bind ?m _] =>
        match m with
        | (if _ then _ else _) => set (pre := m)
        end
    end.
    assert (Hpre : exists b1 rt1, pre rt = Ok (set_buffer e b1, rt1)).
    { subst pre. destruct (bufferMaxSize e >? 0); [destruct (_ >? _)|];
        try (exists (buffer e), rt; apply Hsame).
      destruct (flush_fixed_total e rt Hmax) as (b & rt1 & Hf & _). by exists b, rt1. }
    destruct Hpre as (b1 & rt1 & Hpre).
    unfold bind at 1 2. rewrite Hpre. unfold bind at 1. simpl.
    destruct (append_total growslack b1 data rt1) as (b & rt2 & ->).
    by exists b, rt2.
  - unfold Export. destruct r.
    + destruct (flush_fixed_total e rt Hmax) as (b & rt1 & Hf & _). by exists b, rt1.
    + unfold bind at 1. destruct (bytes_total e rt) as (s & rt1 & ->).
      unfold bind, go, ret. eexists (buffer e), _. apply Hsame.
  - unfold Bytes, bind. destruct (bytes_total e rt) as (s & rt1 & ->).
    eexists (buffer e), _. apply Hsame.
  - destruct (reset_fixed_total e rt Hmax) as (b & rt1 & Hr & _). by exists b, rt1.
  - unfold bind, IntervalExport, ret.
    destruct (d <=? 0); eexists (buffer e), _; apply Hsame.
  - unfold bind, cancel, ret. eexists (buffer e), _; apply Hsame.
  - unfold tick. destruct (tasks rt !! h) as [t|];
      [|eexists (buffer e), _; apply Hsame].
    destruct (cancelled t); [eexists (buffer e), _; apply Hsame|].
    destruct (flush_fixed_total e rt Hmax) as (b & rt1 & Hf & _). by exists b, rt1.
Qed.

(** X1.  A fixed-capacity sink never panics: every sequence of calls runs
    to the end, and leaves the exporter, the capacity and both counters of
    the adaptive policy exactly as they were. *)
Theorem fixed_capacity_never_panics (e : Evexi) (ops : list op) (rt : Runtime) :
  bufferMaxSize e > 0 ->
  exists e' rt',
    run growslack e ops rt = Ok (e', rt') /\
    export e' = export e /\ bufferMaxSize e' = bufferMaxSize e /\
    totalBufSize e' = totalBufSize e /\ bufCount e' = bufCount e.
Proof.
  revert e rt. induction ops as [|o ops IH]; intros e rt Hmax.
  - by exists e, rt.
  - destruct (step_fixed_total e o rt Hmax) as (b & rt1 & Hs).
    destruct (IH (set_buffer e b) rt1 Hmax) as (e' & rt' & Hr & H1 & H2 & H3 & H4).
    exists e', rt'. simpl. unfold bind. rewrite Hs. by rewrite Hr.
Qed.

(** One call keeps the buffer within the capacity, and its array of exactly
    that capacity, as long as the data of an append fits on its own. *)
Lemma step_fixed_size (e : Evexi) (o : op) (rt : Runtime) :
  bufferMaxSize e > 0 -> 2 * bufferMaxSize e <= int_max ->
  fits (bufferMaxSize e) o ->
  go_len (buffer e) <= bufferMaxSize e ->
  cap (buffer e) = Z.to_nat (bufferMaxSize e) ->
  exists b rt',
    step growslack e o rt = Ok (set_buffer e b, rt') /\
    go_len b <= bufferMaxSize e /\ cap b = Z.to_nat (bufferMaxSize e).
Proof.
  intros Hmax Hint Hfits Hlen Hcap.
  assert (Hsame : forall rt' : Runtime,
            Ok (e, rt') = Ok (set_buffer e (buffer e), rt'))
    by (intros; by destruct e).
  assert (Hflush : exists b rt',
            snapshot_reset_dispatch e rt = Ok (set_buffer e b, rt') /\
            go_len b <= bufferMaxSize e /\ cap b = Z.to_nat (bufferMaxSize e) /\
            len b = 0%nat).
  { destruct (flush_fixed_total e rt Hmax) as (b & rt1 & Hf & Hl & Hc).
    exists b, rt1. split; [done|]. unfold go_len. rewrite Hl.
    split; [lia|]. split; [destruct Hc; congruence|done]. }
  destruct o as [data|r| | |d|h|h]; simpl in *.
  - unfold Write. rewrite Z.gtb_ltb.
    destruct (Z.ltb_spec 0 (bufferMaxSize e)); [|lia].
    rewrite Write_test by lia.
    destruct (Z.ltb_spec (bufferMaxSize e)
                (go_len (buffer e) + Z.of_nat (length data))) as [Hover|Hfit].
    + destruct Hflush as (b1 & rt1 & Hf & _ & Hc1 & Hl1).
      unfold bind at 1 2.
      change (snapshot_reset_dispatch e rt = Ok (set_buffer e b1, rt1)) in Hf.
      unfold snapshot_reset_dispatch in Hf. rewrite Hf.
      destruct (append_in_place b1 data rt1) as (rt2 & Happ); [lia|].
      unfold bind at 1. simpl. rewrite Happ. unfold bind, ret. simpl.
      eexists _, _. split; [reflexivity|]. unfold go_len. simpl. lia.
    + unfold bind at 1 2. unfold ret at 1.
      destruct (append_in_place (buffer e) data rt) as (rt2 & Happ);
        [unfold go_len in *; lia|].
      unfold bind at 1. rewrite Happ. unfold bind, ret. simpl.
      eexists _, _. split; [reflexivity|]. unfold go_len in *. simpl. lia.
  - destruct r.
    + destruct Hflush as (b & rt1 & Hf & Hl & Hc & _). by exists b, rt1.
    + unfold Export. unfold bind at 1.
      destruct (bytes_total e rt) as (s & rt1 & ->).
      unfold bind, go, ret. eexists (buffer e), _. by split; [apply Hsame|].
  - unfold Bytes, bind. destruct (bytes_total e rt) as (s & rt1 & ->).
    eexists (buffer e), _. by split; [apply Hsame|].
  - destruct (reset_fixed_total e rt Hmax) as (b & rt1 & Hr & Hl & Hc).
    exists b, rt1. split; [done|]. unfold go_len. rewrite Hl.
    split; [lia|destruct Hc; congruence].
  - unfold bind, IntervalExport, ret.
    destruct (d <=? 0); eexists (buffer e), _; by split; [apply Hsame|].
  - unfold bind, cancel, ret. eexists (buffer e), _; by split; [apply Hsame|].
  - unfold tick. destruct (tasks rt !! h) as [t|];
      [|eexists (buffer e), _; by split; [apply Hsame|]].
    destruct (cancelled t); [eexists (buffer e), _; by split; [apply Hsame|]|].
    destruct Hflush as (b & rt1 & Hf & Hl & Hc & _). by exists b, rt1.
Qed.

(** X2.  On a fixed-capacity sink that [New] has returned and whose appends
    each fit the capacity, the buffer never holds more than [bufferMaxSize]
    bytes and its array always has exactly that capacity, whatever is
    called and in whatever order. *)
Theorem fixed_capacity_buffer_stays_in_bounds (fn : ExportFn) (max : Z)
    (ops : list op) (rt0 rt1 : Runtime) (e0 : Evexi) :
  New (Some fn) max rt0 = Ok ((Some e0, None), rt1) ->
  max > 0 -> 2 * max <= int_max ->
  Forall (fits max) ops ->
  exists e rt,
    run growslack e0 ops rt1 = Ok (e, rt) /\
    go_len (buffer e) <= max /\ go_cap (buffer e) = max.
Proof.
  intros HNew Hmax Hint Hfits.
  destruct (New_valid fn max rt0) as (b0 & rt1' & HN & Hb0 & Hok0 & _).
  assert (Hc0 : cap b0 = Z.to_nat max).
  { rewrite New_ok in HN. by injection HN as <- _. }
  rewrite HNew in HN. injection HN as -> ->.
  assert (Hgen : forall l e rt,
            Forall (fits max) l ->
            bufferMaxSize e = max -> go_len (buffer e) <= max ->
            cap (buffer e) = Z.to_nat max ->
            exists e' rt',
              run growslack e l rt = Ok (e', rt') /\
              go_len (buffer e') <= max /\ cap (buffer e') = Z.to_nat max).
  { intros l. induction l as [|o l IH]; intros e rt Hl_fits He Hl Hc.
    - by exists e, rt.
    - apply Forall_cons in Hl_fits as (Ho & Hl_fits).
      destruct (step_fixed_size e o rt) as (b & rt2 & Hs & Hl1 & Hc1);
        try (rewrite He; done).
      rewrite He in Hl1, Hc1.
      destruct (IH (set_buffer e b) rt2 Hl_fits He Hl1 Hc1) as (e' & rt' & Hr & H').
      exists e', rt'. simpl. unfold bind. rewrite Hs. by rewrite Hr. }
  destruct (Hgen ops (mkEvexi b0 fn max 0 0) rt1' Hfits eq_refl)
    as (e & rt & Hr & Hl & Hc).
  { simpl. unfold go_len. rewrite Hb0. lia. }
  { done. }
  exists e, rt. split; [done|].
  split; [done|]. unfold go_cap. rewrite Hc. lia.
Qed.

(** X3.  In fixed-capacity mode [Reset], [Export(true)] and the tick of a
    live interval task all leave the buffer empty: [Bytes] called next
    returns a slice of length 0. *)
Theorem fixed_capacity_reset_empties (e : Evexi) (o : op) (rt : Runtime) :
  slice_ok rt (buffer e) ->
  bufferMaxSize e > 0 ->
  (o = OpReset \/ o = OpExport true \/
   exists h t, o = OpTick h /\ tasks rt !! h = Some t /\ cancelled t = false) ->
  exists e' rt' out rt'',
    step growslack e o rt = Ok (e', rt') /\
    Bytes e' rt' = Ok (out, rt'') /\
    go_len out = 0 /\ contents rt'' out = [].
Proof.
  intros Hok Hmax Ho.
  assert (Hstep : exists b rt',
            step growslack e o rt = Ok (set_buffer e b, rt') /\ len b = 0%nat).
  { destruct Ho as [->|[->|(h & t & -> & Ht & Hc)]]; simpl.
    - destruct (reset_fixed_total e rt Hmax) as (b & rt' & Hr & Hl & _).
      by exists b, rt'.
    - destruct (flush_fixed_total e rt Hmax) as (b & rt' & Hr & Hl & _).
      by exists b, rt'.
    - unfold tick. rewrite Ht, Hc.
      destruct (flush_fixed_total e rt Hmax) as (b & rt' & Hr & Hl & _).
      by exists b, rt'. }
  destruct Hstep as (b & rt' & Hs & Hl).
  pose proof (step_frame growslack e _ o rt rt' Hok Hs) as (Hok' & _).
  exists (set_buffer e b), rt'. eexists _, _.
  split; [exact Hs|]. unfold Bytes. rewrite bytes_ok by apply Hok'.
  split; [reflexivity|]. simpl in *. unfold go_len, contents. simpl.
  rewrite Hl. done.
Qed.

(** X4.  In fixed-capacity mode an append that crosses the threshold, with
    data that fits the capacity on its own, is exactly [Export(true)]
    followed by the same append. *)
Theorem Write_over_capacity_is_Export_then_Write (e : Evexi) (data : list byte)
    (rt : Runtime) :
  bufferMaxSize e > 0 ->
  Z.of_nat (length data) <= bufferMaxSize e <= int_max ->
  go_len (buffer e) + Z.of_nat (length data) <= int_max ->
  go_len (buffer e) + Z.of_nat (length data) > bufferMaxSize e ->
  Write growslack e data rt =
    (do e1 <- Export e true; Write growslack e1 data) rt.
Proof.
  intros Hmax Hfit Hint Hover.
  destruct (flush_fixed_total e rt Hmax) as (b & rt1 & Hf & Hl & _).
  unfold bind at 1.
  change (Export e true) with (snapshot_reset_dispatch e). rewrite Hf.
  unfold Write. simpl bufferMaxSize. simpl buffer.
  rewrite Z.gtb_ltb. destruct (Z.ltb_spec 0 (bufferMaxSize e)); [|lia].
  rewrite (Write_test e data Hint).
  destruct (Z.ltb_spec (bufferMaxSize e)
              (go_len (buffer e) + Z.of_nat (length data))); [|lia].
  assert (Hno : (int_add (go_len b) (Z.of_nat (length data)) >? bufferMaxSize e)
                = false).
  { unfold go_len. rewrite Hl. simpl. rewrite int_add_small, Z.gtb_ltb.
    - apply Z.ltb_ge. lia.
    - unfold is_int, int_min, int_max in *. lia. }
  rewrite Hno.
  unfold bind at 1. unfold snapshot_reset_dispatch in Hf. rewrite Hf.
  unfold bind at 3. unfold ret at 3. done.
Qed.

(** An append below the threshold, when the sum of the lengths does not
    wrap. *)
Lemma Write_within (e : Evexi) (data : list byte) (rt : Runtime) :
  slice_ok rt (buffer e) ->
  go_len (buffer e) + Z.of_nat (length data) <= int_max ->
  go_len (buffer e) + Z.of_nat (length data) <= bufferMaxSize e ->
  exists b rt',
    Write growslack e data rt =
      Ok ((set_buffer e b, (Z.of_nat (length data), None)), rt') /\
    slice_ok rt' b /\
    contents rt' b = contents rt (buffer e) ++ data /\
    spawned rt' = spawned rt.
Proof.
  intros Hok Hint Hfit.
  destruct (append_ok growslack (buffer e) data rt Hok)
    as (b & rt' & Happ & Hok' & Hcont & _ & _ & _ & Hsp & _).
  exists b, rt'. split; [|done].
  unfold Write. rewrite (Write_test e data Hint).
  destruct (Z.ltb_spec (bufferMaxSize e)
              (go_len (buffer e) + Z.of_nat (length data))); [lia|].
  destruct (bufferMaxSize e >? 0); unfold bind, ret; by rewrite Happ.
Qed.

(** ** No byte lost, none repeated *)

Lemma dispatched_grow (rt rt' : Runtime) (e e' : Evexi)
    (news : list (ExportFn * slice)) :
  extends rt e rt' e' ->
  spawned rt' = spawned rt ++ news ->
  dispatched rt' =
    dispatched rt ++ concat (map (fun x => contents rt' (snd x)) news).
Proof.
  intros (_ & _ & Hc & _) Hsp. unfold dispatched.
  rewrite Hsp, map_app, concat_app. f_equal. f_equal.
  by apply map_ext_Forall.
Qed.

Lemma dispatched_same (rt rt' : Runtime) (e e' : Evexi) :
  extends rt e rt' e' -> spawned rt' = spawned rt ->
  dispatched rt' = dispatched rt.
Proof.
  intros Hext Hsp.
  rewrite (dispatched_grow rt rt' e e' [] Hext); simpl.
  - by rewrite app_nil_r.
  - by rewrite app_nil_r.
Qed.

Lemma flush_fixed_conserves (e : Evexi) (b : slice) (rt rt' : Runtime) :
  sink_ok rt e -> bufferMaxSize e > 0 ->
  snapshot_reset_dispatch e rt = Ok (set_buffer e b, rt') ->
  dispatched rt' ++ contents rt' b = dispatched rt ++ contents rt (buffer e) /\
  len b = 0%nat.
Proof.
  intros Hok Hmax Hf.
  pose proof (flush_extends e _ rt rt' Hok Hf) as Hext.
  destruct (flush_spec e _ rt rt' (proj1 Hok) Hf) as (_ & Hsp & _ & Hsnap & _).
  destruct (flush_fixed_total e rt Hmax) as (b' & rt1 & Hf' & Hl & _).
  rewrite Hf in Hf'. injection Hf' as <- <-.
  split; [|done].
  rewrite (dispatched_grow rt rt' e _ _ Hext Hsp). simpl.
  rewrite Hsnap, (contents_empty rt' b Hl), !app_nil_r. done.
Qed.

Lemma step_fixed_conserves (e : Evexi) (o : op) (rt : Runtime) :
  sink_ok rt e -> bufferMaxSize e > 0 -> lossless o ->
  go_len (buffer e) + Z.of_nat (length (op_data o)) <= int_max ->
  exists b rt',
    step growslack e o rt = Ok (set_buffer e b, rt') /\
    sink_ok rt' (set_buffer e b) /\
    dispatched rt' ++ contents rt' b =
      dispatched rt ++ contents rt (buffer e) ++ op_data o /\
    go_len b <= go_len (buffer e) + Z.of_nat (length (op_data o)).
Proof.
  intros Hok Hmax Hloss Hint.
  destruct (step_fixed_total e o rt Hmax) as (b & rt' & Hs).
  pose proof (step_extends growslack e _ o rt rt' Hok Hs) as Hext.
  exists b, rt'. split; [exact Hs|]. split; [apply Hext|].
  assert (Hkeep : forall rt1 : Runtime,
            Ok (e, rt1) = Ok (set_buffer e b, rt') ->
            heap rt1 = heap rt -> spawned rt1 = spawned rt ->
            dispatched rt' ++ contents rt' b =
              dispatched rt ++ contents rt (buffer e) ++ [] /\
            go_len b <= go_len (buffer e) + 0).
  { intros rt1 [= He <-] Hh Hsp. rewrite He. simpl.
    rewrite (dispatched_same rt rt1 e _ Hext Hsp), app_nil_r.
    unfold contents. rewrite Hh. split; [done|lia]. }
  destruct o as [data|r| | |d|h|h]; simpl in Hs, Hint |- *.
  - destruct (Z_le_gt_dec (go_len (buffer e) + Z.of_nat (length data))
                (bufferMaxSize e)) as [Hfit|Hover].
    + destruct (Write_within e data rt (proj1 Hok) Hint Hfit)
        as (b2 & rt2 & HW & Hok2 & Hc2 & Hsp).
      unfold bind in Hs. rewrite HW in Hs. injection Hs as <- <-.
      rewrite (dispatched_same rt rt2 e _ Hext Hsp), Hc2.
      split; [done|]. unfold go_len.
      rewrite <- (contents_length rt2 b2 Hok2), Hc2, length_app.
      rewrite contents_length by apply Hok. lia.
    + destruct (Write_flush growslack e data rt (proj1 Hok) Hmax Hint Hover)
        as (b2 & rt2 & HW & Hsp & Hsnap & Hok2 & Hc2 & _).
      unfold bind in Hs. rewrite HW in Hs. injection Hs as <- <-.
      rewrite (dispatched_grow rt rt2 e _ _ Hext Hsp). simpl.
      rewrite Hsnap, Hc2, app_nil_r, <- app_assoc.
      split; [done|]. unfold go_len.
      rewrite <- (contents_length rt2 b2 Hok2), Hc2. lia.
  - destruct r; [|done].
    destruct (flush_fixed_conserves e b rt rt' Hok Hmax Hs) as (Hc & Hl).
    rewrite Hc, app_nil_r. split; [done|]. unfold go_len. rewrite Hl. lia.
  - unfold Bytes, bind in Hs. rewrite bytes_ok in Hs by apply Hok.
    unfold ret in Hs. injection Hs as He <-.
    assert (Hb : b = buffer e) by (by rewrite He).
    subst b. rewrite (dispatched_same rt _ e _ Hext eq_refl), app_nil_r.
    unfold contents. simpl. rewrite array_at_app_l by apply Hok.
    split; [done|lia].
  - done.
  - unfold bind, IntervalExport, ret in Hs.
    destruct (d <=? 0); by apply (Hkeep _ Hs).
  - unfold bind, cancel, ret in Hs. by apply (Hkeep _ Hs).
  - done.
Qed.

(** X5.  On a fixed-capacity sink that [New] has returned, along any
    sequence of appends, [Export(true)], [Bytes], [IntervalExport] and
    cancel calls (the calls that dispatch while holding [mux]; no tick of
    an interval task in between), the bytes handed to the exporter so far,
    in the order of the [go] statements that hand them over, followed by
    the bytes still in the buffer are exactly the bytes appended, in order:
    nothing is lost, repeated or reordered. *)
Theorem fixed_capacity_conserves_bytes (fn : ExportFn) (max : Z)
    (ops : list op) (rt0 rt1 : Runtime) (e0 : Evexi) :
  New (Some fn) max rt0 = Ok ((Some e0, None), rt1) ->
  spawned rt0 = [] ->
  max > 0 ->
  Forall lossless ops ->
  Z.of_nat (length (appended ops)) <= int_max ->
  exists e rt,
    run growslack e0 ops rt1 = Ok (e, rt) /\
    dispatched rt ++ contents rt (buffer e) = appended ops.
Proof.
  intros HNew Hsp0 Hmax Hloss Hint.
  destruct (New_valid fn max rt0) as (b0 & rt1' & HN & Hb0 & Hok0 & Hsp1 & _).
  pose proof (New_sink_ok fn max rt0 rt1' _ Hsp0 HN) as Hsink.
  rewrite HNew in HN. injection HN as -> ->.
  assert (Hgen : forall l e rt,
            sink_ok rt e -> bufferMaxSize e = max -> Forall lossless l ->
            go_len (buffer e) + Z.of_nat (length (appended l)) <= int_max ->
            exists e' rt',
              run growslack e l rt = Ok (e', rt') /\
              dispatched rt' ++ contents rt' (buffer e') =
                dispatched rt ++ contents rt (buffer e) ++ appended l).
  { intros l. induction l as [|o l IH]; intros e rt Hok He Hl Hlen.
    - exists e, rt. split; [done|]. unfold appended. simpl. by rewrite app_nil_r.
    - apply Forall_cons in Hl as (Ho & Hl).
      unfold appended in Hlen. simpl in Hlen. rewrite length_app in Hlen.
      fold (appended l) in Hlen.
      destruct (step_fixed_conserves e o rt Hok) as (b & rt2 & Hs & Hok2 & Hc & Hb);
        [lia|done|lia|].
      destruct (IH (set_buffer e b) rt2 Hok2 He Hl) as (e' & rt' & Hr & Hc').
      { simpl. lia. }
      exists e', rt'. simpl. unfold bind. rewrite Hs. split; [exact Hr|].
      rewrite Hc'. simpl. rewrite app_assoc, Hc. unfold appended. simpl.
      by rewrite <- !app_assoc. }
  destruct (Hgen ops (mkEvexi b0 fn max 0 0) rt1' Hsink eq_refl Hloss)
    as (e & rt & Hr & Hc).
  { simpl. unfold go_len. rewrite Hb0. lia. }
  exists e, rt. split; [done|].
  rewrite Hc. unfold dispatched. rewrite Hsp1, Hsp0. simpl.
  by rewrite (contents_empty rt1' b0 Hb0).
Qed.

End FixedCapacity.

Section AnyMode.

Variable growslack : nat -> nat -> nat.

(** X6.  [Write] never fails and never panics, in either mode and from any
    state: it returns [len(data)] and a nil error, and leaves the exporter,
    the capacity and both counters as they were. *)
Theorem Write_never_fails (e : Evexi) (data : list byte) (rt : Runtime) :
  exists e' rt',
    Write growslack e data rt = Ok ((e', (Z.of_nat (length data), None)), rt') /\
    export e' = export e /\ bufferMaxSize e' = bufferMaxSize e /\
    totalBufSize e' = totalBufSize e /\ bufCount e' = bufCount e.
Proof.
  unfold Write.
  match goal with
  | |- context [bind ?m _] =>
      match m with
      | (if _ then _ else _) => set (pre := m)
      end
  end.
  assert (Hpre : exists b1 rt1, pre rt = Ok (set_buffer e b1, rt1)).
  { subst pre. rewrite Z.gtb_ltb.
    destruct (Z.ltb_spec 0 (bufferMaxSize e)) as [Hmax|];
      [destruct (int_add _ _ >? _)|]; try (exists (buffer e), rt; by destruct e).
    destruct (flush_fixed_total e rt ltac:(lia)) as (b & rt1 & Hf & _).
    by exists b, rt1. }
  destruct Hpre as (b1 & rt1 & Hpre).
  unfold bind at 1. rewrite Hpre. unfold bind at 1. simpl.
  destruct (append_total growslack b1 data rt1) as (b & rt2 & ->).
  by eexists _, _.
Qed.

(** X7.  [Export(false)] hands the exporter a copy of the buffer and
    changes nothing else: the sink is the same, the buffer holds the same
    bytes, and the copy is in an array of its own. *)
Theorem Export_false_only_dispatches (e : Evexi) (rt : Runtime) :
  slice_ok rt (buffer e) ->
  exists rt' snapshot,
    Export e false rt = Ok (e, rt') /\
    spawned rt' = spawned rt ++ [(export e, snapshot)] /\
    contents rt' snapshot = contents rt (buffer e) /\
    contents rt' (buffer e) = contents rt (buffer e) /\
    ptr snapshot <> ptr (buffer e) /\
    tasks rt' = tasks rt.
Proof.
  intros Hok. assert (Hp : (ptr (buffer e) < length (heap rt))%nat) by apply Hok.
  unfold Export. unfold bind at 1. rewrite bytes_ok by done.
  unfold bind, go, ret. simpl. eexists _, _. split; [reflexivity|].
  simpl. split; [done|]. unfold contents. simpl.
  rewrite array_at_app_r, array_at_app_l by done.
  split; [apply take_ge; fold (contents rt (buffer e));
          by rewrite contents_length|].
  split; [done|]. split; [lia|done].
Qed.

(** X8.  In adaptive mode an append only appends: whatever the sizes, the
    buffer afterwards holds its earlier bytes followed by [data], nothing is
    dispatched to the exporter and the counters are not touched. *)
Theorem adaptive_Write_only_appends (e : Evexi) (data : list byte) (rt : Runtime) :
  slice_ok rt (buffer e) ->
  bufferMaxSize e <= 0 ->
  exists b rt',
    Write growslack e data rt =
      Ok ((set_buffer e b, (Z.of_nat (length data), None)), rt') /\
    contents rt' b = contents rt (buffer e) ++ data /\
    spawned rt' = spawned rt /\ tasks rt' = tasks rt.
Proof.
  intros Hok Hmax.
  destruct (Write_noflush growslack e data rt Hok ltac:(lia))
    as (b & rt' & HW & _ & Hc & _ & _ & Hsp & Hts).
  by exists b, rt'.
Qed.

Lemma program_reaches (fn : ExportFn) (max : Z) (ops : list op)
    (rt0 rt : Runtime) (e : Evexi) :
  spawned rt0 = [] ->
  program growslack (Some fn) max ops rt0 = Ok (Some e, rt) ->
  sink_ok rt e /\ export e = fn /\ bufferMaxSize e = max /\
  Forall (fun x => fst x = fn) (spawned rt).
Proof.
  intros Hsp0. unfold program. unfold bind at 1.
  destruct (New_valid fn max rt0) as (b0 & rt1 & HN & _ & _ & Hsp1 & _).
  pose proof (New_sink_ok fn max rt0 rt1 _ Hsp0 HN) as Hsink.
  rewrite HN. cbn [fst]. unfold bind.
  destruct (run growslack _ ops rt1) as [[e1 rt2]|p] eqn:Hr; [|done].
  unfold ret. intros [= <- <-].
  apply run_extends in Hr as (Hok & (news & Hsp & Hfn) & _ & Hex & Hmx); [|done].
  split; [done|]. split; [done|]. split; [done|].
  by rewrite Hsp, Hsp1, Hsp0.
Qed.

(** X9.  Whatever is later called on the sink, what has been dispatched
    stays dispatched and unchanged: the list of dispatches only grows at
    its end, every snapshot in it keeps the bytes it had, and none of them
    shares the array of the buffer. *)
Theorem dispatched_snapshots_never_change (fn : ExportFn) (max : Z)
    (ops later : list op) (rt0 rt rt' : Runtime) (e e' : Evexi) :
  spawned rt0 = [] ->
  program growslack (Some fn) max ops rt0 = Ok (Some e, rt) ->
  run growslack e later rt = Ok (e', rt') ->
  (exists news, spawned rt' = spawned rt ++ news) /\
  Forall (fun x => contents rt' (snd x) = contents rt (snd x) /\
                   ptr (snd x) <> ptr (buffer e'))
         (spawned rt).
Proof.
  intros Hsp0 Hprog Hlater.
  destruct (program_reaches fn max ops rt0 rt e Hsp0 Hprog) as (Hok & _).
  destruct (run_extends growslack later e e' rt rt' Hok Hlater)
    as ((_ & Hsn) & (news & Hsp & _) & Hc & _).
  split; [by exists news|].
  unfold snapshots_ok in Hsn. rewrite Hsp in Hsn.
  apply Forall_app in Hsn as (Hsn & _).
  apply Forall_and. split; [done|].
  eapply Forall_impl; [exact Hsn|]. by intros x (_ & Hne).
Qed.

(** X10.  A sink keeps the exporter and the capacity it was constructed
    with, and every dispatch it ever makes goes to that exporter. *)
Theorem dispatches_go_to_the_exporter (fn : ExportFn) (max : Z)
    (ops : list op) (rt0 rt : Runtime) (e : Evexi) :
  spawned rt0 = [] ->
  program growslack (Some fn) max ops rt0 = Ok (Some e, rt) ->
  export e = fn /\ bufferMaxSize e = max /\
  Forall (fun x => fst x = fn) (spawned rt).
Proof.
  intros Hsp0 Hprog.
  by destruct (program_reaches fn max ops rt0 rt e Hsp0 Hprog) as (_ & H).
Qed.

End AnyMode.

Section SteadyLoad.

Variable growslack : nat -> nat -> nat.

(** One round on an empty adaptive buffer whose history is [c] flushes of
    [n] bytes each. *)
Lemma steady_round (b : slice) (fn : ExportFn) (max c n : Z) (d : list byte)
    (rt : Runtime) :
  sink_ok rt (mkEvexi b fn max (c * n) c) -> len b = 0%nat ->
  max <= 0 ->
  Z.of_nat (length d) = n ->
  0 <= c < int_max ->
  2 * ((c + 1) * n) <= int_max ->
  exists b' rt',
    run growslack (mkEvexi b fn max (c * n) c) [OpWrite d; OpExport true] rt =
      Ok (mkEvexi b' fn max ((c + 1) * n) (c + 1), rt') /\
    sink_ok rt' (mkEvexi b' fn max ((c + 1) * n) (c + 1)) /\
    len b' = 0%nat /\
    length (spawned rt') = S (length (spawned rt)) /\
    dispatched rt' = dispatched rt ++ d.
Proof.
  intros Hok Hemp Hmax Hn Hc Hsum.
  set (e := mkEvexi b fn max (c * n) c) in *.
  assert (Hn0 : 0 <= n) by lia.
  destruct (Write_noflush growslack e d rt (proj1 Hok) ltac:(simpl; lia))
    as (b1 & rt1 & HW & Hok1 & Hc1 & _ & _ & Hsp1 & _).
  simpl in Hc1. rewrite (contents_empty rt b Hemp) in Hc1. simpl in Hc1.
  assert (Hl1 : go_len b1 = n).
  { unfold go_len. by rewrite <- (contents_length rt1 b1 Hok1), Hc1. }
  assert (Hs1 : step growslack e (OpWrite d) rt = Ok (set_buffer e b1, rt1)).
  { simpl. unfold bind. by rewrite HW. }
  pose proof (step_extends growslack e _ _ rt rt1 Hok Hs1) as Hext1.
  assert (Htot : c * n + n = (c + 1) * n) by lia.
  assert (Havg : (c * n + n) / (c + 1) = n).
  { rewrite Htot, Z.mul_comm. apply Z.div_mul. lia. }
  destruct (Export_true_adaptive (set_buffer e b1) rt1 Hok1)
    as (b' & rt' & HE & Hre & _).
  { simpl. lia. } { simpl. lia. } { simpl. nia. }
  { simpl. rewrite Hl1, Htot. lia. }
  simpl in HE, Hre. rewrite Hl1, Htot in HE. rewrite Hl1, Havg in Hre.
  destruct (Hre ltac:(lia)) as (-> & Hokb).
  pose proof HE as HF.
  change (Export (set_buffer e b1) true) with
    (snapshot_reset_dispatch (set_buffer e b1)) in HF.
  pose proof (flush_extends _ _ rt1 rt' (proj1 Hext1) HF) as Hext2.
  destruct (flush_spec (set_buffer e b1) _ rt1 rt' Hok1 HF)
    as (_ & Hsp2 & _ & Hsnap & _).
  simpl in Hsp2, Hsnap.
  eexists _, rt'. split.
  { simpl. unfold bind at 1 2. rewrite HW. simpl. unfold bind, ret.
    rewrite HE. reflexivity. }
  split; [apply Hext2|]. split; [done|].
  split; [rewrite Hsp2, Hsp1, length_app; simpl; lia|].
  rewrite (dispatched_grow rt1 rt' _ _ _ Hext2 Hsp2). simpl.
  rewrite Hsnap, Hc1, app_nil_r.
  by rewrite (dispatched_same rt rt1 _ _ Hext1 Hsp1).
Qed.

Lemma steady_rounds (ds : list (list byte)) (b : slice) (fn : ExportFn)
    (max c n : Z) (rt : Runtime) :
  sink_ok rt (mkEvexi b fn max (c * n) c) -> len b = 0%nat ->
  max <= 0 ->
  Forall (fun d => Z.of_nat (length d) = n) ds ->
  0 <= c -> c + Z.of_nat (length ds) <= int_max ->
  2 * ((c + Z.of_nat (length ds)) * n) <= int_max ->
  exists b' rt',
    run growslack (mkEvexi b fn max (c * n) c) (rounds ds) rt =
      Ok (mkEvexi b' fn max ((c + Z.of_nat (length ds)) * n)
                  (c + Z.of_nat (length ds)), rt') /\
    len b' = 0%nat /\
    length (spawned rt') = (length (spawned rt) + length ds)%nat /\
    dispatched rt' = dispatched rt ++ concat ds.
Proof.
  revert b c rt. induction ds as [|d ds IH]; intros b c rt Hok Hemp Hmax Hds Hc Hk Hsum.
  - exists b, rt. simpl. rewrite Z.add_0_r, Nat.add_0_r, app_nil_r. done.
  - apply Forall_cons in Hds as (Hd & Hds).
    simpl length in *. rewrite Nat2Z.inj_succ in *.
    assert (Hn0 : 0 <= n) by lia.
    destruct (steady_round b fn max c n d rt Hok Hemp Hmax Hd)
      as (b1 & rt1 & Hr1 & Hok1 & Hemp1 & Hsp1 & Hd1); [lia|nia|].
    destruct (IH b1 (c + 1) rt1 Hok1 Hemp1 Hmax Hds)
      as (b' & rt' & Hr & Hemp' & Hsp & Hdis); [lia|lia|nia|].
    exists b', rt'.
    replace (c + Z.succ (Z.of_nat (length ds)))
      with (c + 1 + Z.of_nat (length ds)) by lia.
    split.
    { change (rounds (d :: ds)) with ([OpWrite d; OpExport true] ++ rounds ds).
      rewrite run_app. unfold bind. rewrite Hr1. exact Hr. }
    split; [done|]. split; [lia|].
    rewrite Hdis, Hd1. simpl. by rewrite <- app_assoc.
Qed.

(** X12.  Steady load in adaptive mode.  When chunks of one common length
    are each appended and then flushed with [Export(true)], every flush
    leaves the buffer empty, the exporter has received exactly the chunks,
    in order, one dispatch per chunk, and the counters hold the number of
    flushes and the number of bytes flushed. *)
Theorem steady_load_flushes_cleanly (fn : ExportFn) (max n : Z)
    (ds : list (list byte)) (rt0 : Runtime) :
  spawned rt0 = [] ->
  max <= 0 ->
  Forall (fun d => Z.of_nat (length d) = n) ds ->
  Z.of_nat (length ds) <= int_max ->
  2 * (Z.of_nat (length ds) * n) <= int_max ->
  exists e rt,
    program growslack (Some fn) max (rounds ds) rt0 = Ok (Some e, rt) /\
    go_len (buffer e) = 0 /\
    bufCount e = Z.of_nat (length ds) /\
    totalBufSize e = Z.of_nat (length ds) * n /\
    length (spawned rt) = length ds /\
    dispatched rt = concat ds.
Proof.
  intros Hsp0 Hmax Hds Hk Hsum.
  destruct (New_valid fn max rt0) as (b0 & rt1 & HN & Hb0 & Hok0 & Hsp1 & _).
  pose proof (New_sink_ok fn max rt0 rt1 _ Hsp0 HN) as Hsink.
  destruct (steady_rounds ds b0 fn max 0 n rt1)
    as (b & rt & Hr & Hemp & Hsp & Hdis); try done; try lia.
  change (0 * n) with 0 in Hr.
  eexists _, rt. unfold program. unfold bind at 1. rewrite HN. cbn [fst].
  unfold bind. rewrite Hr. unfold ret. split; [reflexivity|]. simpl.
  unfold go_len. rewrite Hemp.
  split; [done|]. split; [lia|]. split; [lia|].
  split; [rewrite Hsp, Hsp1, Hsp0; done|].
  rewrite Hdis. unfold dispatched. by rewrite Hsp1, Hsp0.
Qed.

End SteadyLoad.

(** * Further properties of the exporters *)

(** X13.  [MustExportToDisk] panics exactly when the path is empty and the
    working directory cannot be determined, and then with the error of
    [os.Getwd]; in every other case it returns the callback of
    [ExportToDisk], bound to the given path or, for an empty path, to the
    working directory.  A non-empty path never depends on the working
    directory. *)
Theorem MustExportToDisk_panics_only_without_cwd (sep : ascii)
    (Format : Time -> string -> string) (os : OS)
    (path fileNamePrefix : string) :
  (forall err,
     MustExportToDisk sep Format os path fileNamePrefix = inr err <->
     path = EmptyString /\ cwd os = inr err) /\
  (forall fn,
     MustExportToDisk sep Format os path fileNamePrefix = inl fn <->
     ExportToDisk sep Format os path fileNamePrefix = (fn, None)) /\
  (path <> EmptyString ->
   MustExportToDisk sep Format os path fileNamePrefix =
     inl (Some (disk_callback sep Format path fileNamePrefix))) /\
  (forall dir,
     path = EmptyString -> cwd os = inl dir ->
     MustExportToDisk sep Format os path fileNamePrefix =
       inl (Some (disk_callback sep Format dir fileNamePrefix))).
Proof.
  unfold MustExportToDisk, ExportToDisk.
  destruct (String.eqb_spec path EmptyString) as [->|Hne].
  - destruct (cwd os) as [dir|err0].
    + split; [intros err; split; [done|by intros (_ & [=])]|].
      split; [intros fn; split; [by intros [= <-]|by intros [= <-]]|].
      split; [done|]. by intros dir' _ [= <-].
    + split; [intros err; split; [by intros [= <-]|by intros (_ & [= <-])]|].
      split; [intros fn; split; [done|done]|].
      split; [done|]. by intros dir' _ [=].
  - split; [intros err; split; [done|by intros (? & _)]|].
    split; [intros fn; split; [by intros [= <-]|by intros [= <-]]|].
    split; [done|]. by intros dir' ? _.
Qed.

Lemma string_app_assoc (a b c : string) :
  ((a ++ b) ++ c)%string = (a ++ b ++ c)%string.
Proof. induction a as [|x a IH]; simpl; [done|by rewrite IH]. Qed.

(** The loop over the folders builds the path joined with slashes. *)
Lemma key_prefix_is_join (folders : list string) (acc fileNamePrefix : string) :
  WriteString
    (fold_left (fun sb folder => WriteByte (WriteString sb folder) "/") folders acc)
    fileNamePrefix =
  (acc ++ String.concat "/" (folders ++ [fileNamePrefix]))%string.
Proof.
  revert acc. induction folders as [|f fs IH]; intros acc; simpl.
  - done.
  - rewrite IH. unfold WriteByte, WriteString.
    destruct (fs ++ [fileNamePrefix]) as [|x xs] eqn:Hl.
    + by destruct fs.
    + by rewrite !string_app_assoc.
Qed.

(** X14.  The callback [ExportToS3] returns uploads non-empty data to the
    key made of the folders and the prefix joined with slashes, an
    underscore, the current time in the layout [2006_01_02-15_04_05] and
    [.txt], in the given bucket; a failed upload is logged and nothing
    else; empty data causes no upload and no log line. *)
Theorem ExportToS3_uploads_joined_key (Format : Time -> string -> string)
    (sess : Session) (bucket : string) (folders : list string)
    (fileNamePrefix : string) (logData : list byte) (w : Cloud) :
  let key :=
    (String.concat "/" (folders ++ [fileNamePrefix]) ++ "_"
       ++ Format (cloud_now w) "2006_01_02-15_04_05" ++ ".txt")%string in
  let cb := ExportToS3 Format sess bucket folders fileNamePrefix in
  (logData = [] -> cb logData w = w) /\
  (logData <> [] ->
   match upload_error w sess bucket key with
   | None =>
       cb logData w =
         mkCloud (cloud_now w) (upload_error w)
                 (uploaded w ++ [(sess, bucket, key, logData)]) (cloud_logged w)
   | Some err =>
       cb logData w =
         mkCloud (cloud_now w) (upload_error w) (uploaded w)
                 (cloud_logged w ++ [["Unable to upload to S3:"; err]%string])
   end).
Proof.
  simpl. unfold ExportToS3. rewrite key_prefix_is_join. simpl.
  unfold s3_callback, Upload, cloud_Println, fileDateFormat.
  split.
  - by intros ->.
  - intros Hne. destruct logData as [|x l]; [done|]. simpl.
    destruct (upload_error w sess bucket _); done.
Qed.

(** ** Further instances *)

Lemma fixed_capacity_never_panics_witness :
  bufferMaxSize six_of_ten > 0 /\
  exists e' rt',
    run doubling six_of_ten [OpWrite abcdef; OpReset; OpExport true; OpTick 0]
        six_of_ten_ticking = Ok (e', rt') /\
    totalBufSize e' = 0 /\ bufCount e' = 0.
Proof.
  assert (H : bufferMaxSize six_of_ten > 0) by reflexivity.
  split; [exact H|].
  destruct (fixed_capacity_never_panics doubling six_of_ten
              [OpWrite abcdef; OpReset; OpExport true; OpTick 0]
              six_of_ten_ticking H)
    as (e' & rt' & Hr & _ & _ & Ht & Hc).
  exists e', rt'. split; [exact Hr|]. split; [exact Ht|exact Hc].
Defined.

Lemma fixed_capacity_buffer_stays_in_bounds_witness :
  exists e0 rt1,
    New (Some sample_fn) 10 empty_runtime = Ok ((Some e0, None), rt1) /\
    10 > 0 /\ 2 * 10 <= int_max /\ Forall (fits 10) busy_calls /\
    exists e rt,
      run doubling e0 busy_calls rt1 = Ok (e, rt) /\
      go_len (buffer e) <= 10 /\ go_cap (buffer e) = 10.
Proof.
  eexists _, _. split; [reflexivity|].
  assert (H1 : 10 > 0) by reflexivity.
  assert (H2 : 2 * 10 <= int_max) by (vm_compute; discriminate).
  assert (H3 : Forall (fits 10) busy_calls).
  { repeat constructor; simpl; lia. }
  split; [exact H1|]. split; [exact H2|]. split; [exact H3|].
  exact (fixed_capacity_buffer_stays_in_bounds doubling sample_fn 10 busy_calls
           empty_runtime _ _ eq_refl H1 H2 H3).
Defined.

Lemma fixed_capacity_reset_empties_witness :
  slice_ok six_of_ten_rt (buffer six_of_ten) /\
  bufferMaxSize six_of_ten > 0 /\
  exists e' rt' out rt'',
    step doubling six_of_ten OpReset six_of_ten_rt = Ok (e', rt') /\
    Bytes e' rt' = Ok (out, rt'') /\
    go_len out = 0 /\ contents rt'' out = [].
Proof.
  assert (H1 : slice_ok six_of_ten_rt (buffer six_of_ten)).
  { unfold slice_ok. simpl. lia. }
  assert (H2 : bufferMaxSize six_of_ten > 0) by reflexivity.
  split; [exact H1|]. split; [exact H2|].
  exact (fixed_capacity_reset_empties doubling six_of_ten OpReset six_of_ten_rt
           H1 H2 (or_introl eq_refl)).
Defined.

Lemma Write_over_capacity_is_Export_then_Write_witness :
  bufferMaxSize six_of_ten > 0 /\
  Z.of_nat (length ghijkl) <= bufferMaxSize six_of_ten <= int_max /\
  go_len (buffer six_of_ten) + Z.of_nat (length ghijkl) <= int_max /\
  go_len (buffer six_of_ten) + Z.of_nat (length ghijkl) > bufferMaxSize six_of_ten /\
  Write doubling six_of_ten ghijkl six_of_ten_rt =
    (do e1 <- Export six_of_ten true; Write doubling e1 ghijkl) six_of_ten_rt.
Proof.
  assert (H1 : bufferMaxSize six_of_ten > 0) by reflexivity.
  assert (H2 : Z.of_nat (length ghijkl) <= bufferMaxSize six_of_ten <= int_max).
  { split; vm_compute; discriminate. }
  assert (H3 : go_len (buffer six_of_ten) + Z.of_nat (length ghijkl) <= int_max).
  { vm_compute. discriminate. }
  assert (H4 : go_len (buffer six_of_ten) + Z.of_nat (length ghijkl)
               > bufferMaxSize six_of_ten) by reflexivity.
  split; [exact H1|]. split; [exact H2|]. split; [exact H3|]. split; [exact H4|].
  exact (Write_over_capacity_is_Export_then_Write doubling six_of_ten ghijkl
           six_of_ten_rt H1 H2 H3 H4).
Defined.

Lemma fixed_capacity_conserves_bytes_witness :
  exists e0 rt1,
    New (Some sample_fn) 10 empty_runtime = Ok ((Some e0, None), rt1) /\
    spawned empty_runtime = [] /\ 10 > 0 /\ Forall lossless busy_calls /\
    Z.of_nat (length (appended busy_calls)) <= int_max /\
    exists e rt,
      run doubling e0 busy_calls rt1 = Ok (e, rt) /\
      dispatched rt ++ contents rt (buffer e) = abcdef ++ ghijkl ++ abc.
Proof.
  eexists _, _. split; [reflexivity|].
  assert (H1 : spawned empty_runtime = []) by reflexivity.
  assert (H2 : 10 > 0) by reflexivity.
  assert (H3 : Forall lossless busy_calls) by (repeat constructor).
  assert (H4 : Z.of_nat (length (appended busy_calls)) <= int_max).
  { vm_compute. discriminate. }
  split; [exact H1|]. split; [exact H2|]. split; [exact H3|]. split; [exact H4|].
  exact (fixed_capacity_conserves_bytes doubling sample_fn 10 busy_calls
           empty_runtime _ _ eq_refl H1 H2 H3 H4).
Defined.

Lemma Export_false_only_dispatches_witness :
  slice_ok six_of_ten_rt (buffer six_of_ten) /\
  exists rt' snapshot,
    Export six_of_ten false six_of_ten_rt = Ok (six_of_ten, rt') /\
    spawned rt' = [(sample_fn, snapshot)] /\
    contents rt' snapshot = abcdef /\
    contents rt' (buffer six_of_ten) = abcdef.
Proof.
  assert (H1 : slice_ok six_of_ten_rt (buffer six_of_ten)).
  { unfold slice_ok. simpl. lia. }
  split; [exact H1|].
  destruct (Export_false_only_dispatches six_of_ten six_of_ten_rt H1)
    as (rt' & snapshot & HE & Hsp & Hc & Hb & _).
  exists rt', snapshot. split; [exact HE|]. split; [exact Hsp|].
  split; [exact Hc|exact Hb].
Defined.

Lemma adaptive_Write_only_appends_witness :
  slice_ok three_after_one_rt (buffer three_after_one) /\
  bufferMaxSize three_after_one <= 0 /\
  exists b rt',
    Write doubling three_after_one abcdef three_after_one_rt =
      Ok ((set_buffer three_after_one b, (6, None)), rt') /\
    contents rt' b = abc ++ abcdef /\
    spawned rt' = [].
Proof.
  assert (H1 : slice_ok three_after_one_rt (buffer three_after_one)).
  { unfold slice_ok. simpl. lia. }
  assert (H2 : bufferMaxSize three_after_one <= 0) by (simpl; lia).
  split; [exact H1|]. split; [exact H2|].
  destruct (adaptive_Write_only_appends doubling three_after_one abcdef
              three_after_one_rt H1 H2)
    as (b & rt' & HW & Hc & Hsp & _).
  exists b, rt'. split; [exact HW|]. split; [exact Hc|exact Hsp].
Defined.

Lemma dispatched_snapshots_never_change_witness :
  exists e rt e' rt',
    spawned empty_runtime = [] /\
    program doubling (Some sample_fn) 10 [OpWrite abcdef; OpWrite ghijkl]
            empty_runtime = Ok (Some e, rt) /\
    run doubling e [OpWrite abc; OpReset; OpWrite ghijkl] rt = Ok (e', rt') /\
    (exists news, spawned rt' = spawned rt ++ news) /\
    Forall (fun x => contents rt' (snd x) = contents rt (snd x) /\
                     ptr (snd x) <> ptr (buffer e'))
           (spawned rt).
Proof.
  eexists _, _, _, _.
  split; [reflexivity|].
  split; [vm_compute; reflexivity|].
  split; [vm_compute; reflexivity|].
  eapply (dispatched_snapshots_never_change doubling sample_fn 10
            [OpWrite abcdef; OpWrite ghijkl]
            [OpWrite abc; OpReset; OpWrite ghijkl] empty_runtime);
    [reflexivity|vm_compute; reflexivity|vm_compute; reflexivity].
Defined.

Lemma dispatches_go_to_the_exporter_witness :
  exists e rt,
    spawned empty_runtime = [] /\
    program doubling (Some sample_fn) 10 busy_calls empty_runtime
      = Ok (Some e, rt) /\
    export e = sample_fn /\ bufferMaxSize e = 10 /\
    Forall (fun x => fst x = sample_fn) (spawned rt).
Proof.
  eexists _, _.
  split; [reflexivity|].
  split; [vm_compute; reflexivity|].
  eapply (dispatches_go_to_the_exporter doubling sample_fn 10 busy_calls
            empty_runtime);
    [reflexivity|vm_compute; reflexivity].
Defined.

Lemma steady_load_flushes_cleanly_witness :
  spawned empty_runtime = [] /\ 0 <= 0 /\
  Forall (fun d => Z.of_nat (length d) = 10) [ten_bytes; ten_bytes; ten_bytes] /\
  Z.of_nat (length [ten_bytes; ten_bytes; ten_bytes]) <= int_max /\
  2 * (Z.of_nat (length [ten_bytes; ten_bytes; ten_bytes]) * 10) <= int_max /\
  exists e rt,
    program doubling (Some sample_fn) 0 (rounds [ten_bytes; ten_bytes; ten_bytes])
            empty_runtime = Ok (Some e, rt) /\
    go_len (buffer e) = 0 /\ bufCount e = 3 /\ totalBufSize e = 30 /\
    dispatched rt = ten_bytes ++ ten_bytes ++ ten_bytes.
Proof.
  assert (H1 : spawned empty_runtime = []) by reflexivity.
  assert (H2 : 0 <= 0) by lia.
  assert (H3 : Forall (fun d => Z.of_nat (length d) = 10)
                      [ten_bytes; ten_bytes; ten_bytes])
    by (repeat constructor).
  assert (H4 : Z.of_nat (length [ten_bytes; ten_bytes; ten_bytes]) <= int_max).
  { vm_compute. discriminate. }
  assert (H5 : 2 * (Z.of_nat (length [ten_bytes; ten_bytes; ten_bytes]) * 10)
               <= int_max).
  { vm_compute. discriminate. }
  split; [exact H1|]. split; [exact H2|]. split; [exact H3|].
  split; [exact H4|]. split; [exact H5|].
  destruct (steady_load_flushes_cleanly doubling sample_fn 0 10
              [ten_bytes; ten_bytes; ten_bytes] empty_runtime H1 H2 H3 H4 H5)
    as (e & rt & Hp & Hl & Hc & Ht & _ & Hd).
  exists e, rt. split; [exact Hp|]. split; [exact Hl|]. split; [exact Hc|].
  split; [exact Ht|]. rewrite Hd. reflexivity.
Defined.

Lemma MustExportToDisk_panics_only_without_cwd_witness :
  MustExportToDisk "/" go_format no_cwd_os EmptyString "app" =
    inr "getwd: no such file or directory"%string /\
  MustExportToDisk "/" go_format no_cwd_os "/tmp" "app" =
    inl (Some (disk_callback "/" go_format "/tmp" "app")) /\
  MustExportToDisk "/" go_format sample_os EmptyString "app" =
    inl (Some (disk_callback "/" go_format "/var/log" "app")).
Proof.
  destruct (MustExportToDisk_panics_only_without_cwd "/" go_format no_cwd_os
              EmptyString "app") as (Hpanic & _).
  destruct (MustExportToDisk_panics_only_without_cwd "/" go_format no_cwd_os
              "/tmp" "app") as (_ & _ & Hpath & _).
  destruct (MustExportToDisk_panics_only_without_cwd "/" go_format sample_os
              EmptyString "app") as (_ & _ & _ & Hcwd).
  split; [|split].
  - apply Hpanic. split; reflexivity.
  - apply Hpath. discriminate.
  - apply Hcwd; reflexivity.
Defined.

Lemma ExportToS3_uploads_joined_key_witness :
  abc <> [] /\
  ExportToS3 go_format sample_session "bucket" ["logs"; "2024"]%string "app"
             abc sample_cloud =
    mkCloud sample_time (upload_error sample_cloud)
      [(sample_session, "bucket"%string,
        "logs/2024/app_2024_03_05-07_08_09.txt"%string, abc)] [] /\
  ExportToS3 go_format sample_session "bucket" ["logs"; "2024"]%string "app"
             [] sample_cloud = sample_cloud.
Proof.
  assert (Hne : abc <> []) by discriminate.
  split; [exact Hne|].
  destruct (ExportToS3_uploads_joined_key go_format sample_session "bucket"
              ["logs"; "2024"]%string "app" abc sample_cloud) as (_ & Hup).
  destruct (ExportToS3_uploads_joined_key go_format sample_session "bucket"
              ["logs"; "2024"]%string "app" [] sample_cloud) as (Hemp & _).
  split; [exact (Hup Hne)|exact (Hemp eq_refl)].
Defined.
